(** * LeKiwi control centre: motion translation and calibration core

    A shallow embedding of the Python sources

    - [lekiwi_control/motors/encoding_utils.py] (sign-magnitude register codec),
    - [lekiwi_control/robot/lekiwi.py] (class [LeKiwi]: connection state,
      calibration, kinematics, safety clamp, action pipeline),
    - [lekiwi_control/robot/config.py] (class [LeKiwiConfig]).

    Conventions of the embedding.

    - Python [int] is [Z]; the bit operators [|], [&], [<<] are [Z.lor],
      [Z.land], [Z.shiftl] (Python integers are unbounded two's complement,
      exactly the reading of these operators on [Z]).
    - Python [float] and the numpy arrays of floats are read in two ways.
      In the methods of [LeKiwi] they are real numbers [R]: [np.cos],
      [np.sin], [np.pi] are [cos], [sin], [PI], and the one inf of the
      source, the default of a missing per-motor limit, is a constructor of
      its own. The general theorems are proved in this reading, and
      where rounding or overflow could tell they are stated with the
      margins (a few parts in [2^52] of a sum, a thousandth of a raw tick)
      and the bounds on magnitudes within which binary64 cannot make the
      code answer otherwise. In [Binary64] the same lines
      are evaluated in IEEE 754 binary64 on primitive floats, with their
      rounding, nan and inf, on the concrete inputs where the two readings
      part.
    - A raised exception is a value of [exn]; a function that can raise
      returns [result].
    - The motor bus [FeetechMotorsBus] is a collaborator whose code is not
      part of the sources at hand: the robot methods are written against a
      bus whose answers are parameters, and every call they issue is logged.
      The file system behind the calibration file is treated the same way. *)

From Stdlib Require Import ZArith List String Ascii Bool Reals Machin Lra Lia Psatz.
From Stdlib Require Floats.
From stdpp Require Import base option gmap strings.

(** * Part I: the embedding *)

(** ** Exceptions and results *)

Inductive exn : Type :=
| ValueError                    (* negative shift count *)
| KeyError (key : string)       (* dict lookup of a missing key *)
| DeviceNotConnectedError
| DeviceAlreadyConnectedError
| LinAlgError                   (* np.linalg.inv of a singular matrix *)
| OSError                       (* the file system *)
| BusCommunicationFailure.      (* whatever the bus collaborator raises *)

Inductive result (A : Type) : Type :=
| Ok (a : A)
| Raise (e : exn).
Arguments Ok {A} a.
Arguments Raise {A} e.

#[global] Instance result_ret : MRet result := fun A a => Ok a.
#[global] Instance result_bind : MBind result := fun A B f m =>
  match m with
  | Ok a => f a
  | Raise e => Raise e
  end.

(** ** Register codec ([encoding_utils.py]) *)

Module Codec.
Local Open Scope Z_scope.

(** Python's [a << n]: raises [ValueError] on a negative shift count. *)
Definition py_lshift (a n : Z) : result Z :=
  if n <? 0 then Raise ValueError else Ok (Z.shiftl a n).

(** [encode_sign_magnitude(value, sign_bit)], for an [int] value. *)
Definition encode_sign_magnitude (value sign_bit : Z) : result Z :=
  if value <? 0 then
    bit ← py_lshift 1 sign_bit;
    mret (Z.lor (Z.abs value) bit)
  else
    mret value.

(** [decode_sign_magnitude(value, sign_bit)]. *)
Definition decode_sign_magnitude (value sign_bit : Z) : result Z :=
  sign_mask ← py_lshift 1 sign_bit;
  let magnitude_mask := sign_mask - 1 in
  let is_negative := negb (Z.land value sign_mask =? 0) in
  let magnitude := Z.land value magnitude_mask in
  mret (if is_negative then - magnitude else magnitude).

End Codec.


(** ** Python strings and dictionaries *)

Module Py.

(** [s.startswith(p)]. *)
Definition startswith (s p : string) : bool := String.prefix p s.

(** [s.endswith(suffix)]: the last [len(suffix)] characters are [suffix]. *)
Definition endswith (s suffix : string) : bool :=
  (String.length suffix <=? String.length s)%nat &&
  String.eqb
    (String.substring (String.length s - String.length suffix)
                      (String.length suffix) s)
    suffix.

(** [sub in s]: [sub] occurs in [s] as a contiguous substring. *)
Fixpoint contains (sub s : string) : bool :=
  String.prefix sub s ||
  match s with
  | EmptyString => false
  | String _ s' => contains sub s'
  end.

(** [s.replace(old, new)] for a non-empty [old]: every occurrence found
    scanning from the left is replaced, and the scan resumes after it.
    [skip] counts the characters of a matched occurrence still to drop. *)
Fixpoint replace_from (old new : string) (skip : nat) (s : string) : string :=
  match s with
  | EmptyString => EmptyString
  | String c s' =>
      match skip with
      | S k => replace_from old new k s'
      | O =>
          if String.prefix old s
          then String.append new (replace_from old new (String.length old - 1) s')
          else String c (replace_from old new 0 s')
      end
  end.

Definition replace (s old new : string) : string := replace_from old new 0 s.

(** A [dict] with string keys: the list of its items in insertion order.
    The keys of a dict are pairwise distinct; [dict_set] keeps them so. *)
Definition dict (V : Type) : Type := list (string * V).

Definition keys {V} (d : dict V) : list string := map fst d.
Definition values {V} (d : dict V) : list V := map snd d.

(** [d.get(k)] *)
Fixpoint dict_get {V} (k : string) (d : dict V) : option V :=
  match d with
  | [] => None
  | (k', v) :: d' => if String.eqb k k' then Some v else dict_get k d'
  end.

(** [d[k]] *)
Definition dict_getitem {V} (k : string) (d : dict V) : result V :=
  match dict_get k d with
  | Some v => Ok v
  | None => Raise (KeyError k)
  end.

(** [d[k] = v]: an existing key keeps its place, a new one goes last. *)
Fixpoint dict_set {V} (k : string) (v : V) (d : dict V) : dict V :=
  match d with
  | [] => [(k, v)]
  | (k', v') :: d' =>
      if String.eqb k k' then (k', v) :: d' else (k', v') :: dict_set k v d'
  end.

(** [d.update(e)], also the effect of unpacking [**e] after [d]. *)
Definition dict_update {V} (d e : dict V) : dict V :=
  fold_left (fun acc kv => dict_set kv.1 kv.2 acc) e d.

(** [dict.fromkeys(ks, v)] *)
Definition dict_fromkeys {V} (ks : list string) (v : V) : dict V :=
  fold_left (fun acc k => dict_set k v acc) ks [].

(** [{k: v for k, v in d.items() if p(k)}] *)
Definition dict_filter_keys {V} (p : string -> bool) (d : dict V) : dict V :=
  dict_update [] (List.filter (fun kv => p kv.1) d).

(** [{f(k): v for k, v in d.items()}] *)
Definition dict_rekey {V} (f : string -> string) (d : dict V) : dict V :=
  dict_update [] (map (fun kv => (f kv.1, kv.2)) d).

(** [{**a, **b}] *)
Definition dict_merge {V} (a b : dict V) : dict V :=
  dict_update (dict_update [] a) b.

End Py.

(** ** The robot ([robot/lekiwi.py], [robot/config.py]) *)

Module LeKiwi.
Import Py.

(** *** Data *)

Inductive MotorNormMode : Type := RANGE_0_100 | RANGE_M100_100 | DEGREES.

(** [Motor(id, model, norm_mode)] *)
Record Motor : Type := mkMotor {
  motor_id : Z;
  motor_model : string;
  motor_norm_mode : MotorNormMode
}.

(** [MotorCalibration(id=, drive_mode=, homing_offset=, range_min=, range_max=)] *)
Record MotorCalibration : Type := mkMotorCalibration {
  id : Z;
  drive_mode : Z;
  homing_offset : Z;
  range_min : Z;
  range_max : Z
}.

(** [max_relative_target: float | dict[str, float] | None] *)
Inductive RelativeTarget : Type :=
| Scalar (max_rel : R)
| PerMotor (max_rel : dict R).

(** [LeKiwiConfig]; the camera configurations are kept by the robot as the
    cameras made from them. *)
Record LeKiwiConfig : Type := mkConfig {
  port : string;
  max_relative_target : option RelativeTarget;
  disable_torque_on_disconnect : bool;
  use_degrees : bool
}.

(** A camera, as far as the robot looks at it. *)
Record Camera : Type := mkCamera {
  cam_is_connected : bool
}.

(** A number handed to the bus: Python [int] or [float]. *)
Inductive num : Type :=
| Int (z : Z)
| Float (r : R).


(** What the robot does to the outside world, in the order it does it: the
    calls on the bus, the prompt of the operator and the calibration file. *)
Inductive Event : Type :=
| SyncRead (data_name : string) (motors : list string)
| SyncWrite (data_name : string) (values : dict num) (num_retry : option Z)
| Write (data_name : string) (motor : string) (value : Z)
| DisableTorque (motors : option (list string))
| EnableTorque
| SetHalfTurnHomings (motors : list string)
| RecordRangesOfMotion (motors : list string)
| WriteCalibration (calibration : gmap string MotorCalibration)
| Input (prompt : string)
| Mkdir (path : string)
| JsonDump (path : string) (data : gmap string MotorCalibration).

(** The bus collaborator: how it answers each call, given everything that
    happened before. Its code is not among the sources; the robot methods
    are written for any bus, and the properties below quantify over it. *)
Record Bus : Type := mkBus {
  sync_read : list Event -> string -> list string -> result (dict R);
  sync_write : list Event -> string -> dict num -> option Z -> result ();
  write : list Event -> string -> string -> Z -> result ();
  disable_torque : list Event -> option (list string) -> result ();
  enable_torque : list Event -> result ();
  set_half_turn_homings : list Event -> list string -> result (gmap string Z);
  record_ranges_of_motion :
    list Event -> list string -> result (gmap string Z * gmap string Z);
  write_calibration : list Event -> gmap string MotorCalibration -> result ()
}.

(** The file system, as far as [_save_calibration] uses it. *)
Record FileSystem : Type := mkFileSystem {
  mkdir : list Event -> string -> result ();
  json_dump : list Event -> string -> gmap string MotorCalibration -> result ()
}.

(** The robot object: configuration, the observable flags of its bus and
    cameras, and the trace of events so far. *)
Record Robot : Type := mkRobot {
  config : LeKiwiConfig;
  bus_is_connected : bool;
  bus_is_calibrated : bool;
  cameras : dict Camera;
  trace : list Event
}.

Definition log (ev : Event) (rb : Robot) : Robot :=
  mkRobot (config rb) (bus_is_connected rb) (bus_is_calibrated rb)
          (cameras rb) (trace rb ++ [ev]).

(** Methods run in a state-and-exception monad over the robot: an exception
    leaves the robot as it was when raised. *)
Definition M (A : Type) : Type := Robot -> result A * Robot.

#[global] Instance M_ret : MRet M := fun A a rb => (Ok a, rb).
#[global] Instance M_bind : MBind M := fun A B f m rb =>
  match m rb with
  | (Ok a, rb') => f a rb'
  | (Raise e, rb') => (Raise e, rb')
  end.

Definition raise {A} (e : exn) : M A := fun rb => (Raise e, rb).
Definition lift {A} (r : result A) : M A := fun rb => (r, rb).
Definition get_robot : M Robot := fun rb => (Ok rb, rb).

(** One call on the outside world: the answer depends on the trace so far,
    and the call is appended to the trace whether or not it raises. *)
Definition call {A} (ev : Event) (answer : list Event -> result A) : M A :=
  fun rb => (answer (trace rb), log ev rb).

(** [try: m except Exception: pass] for a method without result. *)
Definition try_except (m : M ()) : M () :=
  fun rb =>
    match m rb with
    | (Ok _, rb') => (Ok (), rb')
    | (Raise _, rb') => (Ok (), rb')
    end.

(** The motors of [__init__], in the order of the dict literal. *)
Definition motors (cfg : LeKiwiConfig) : dict Motor :=
  let norm_mode_body := if use_degrees cfg then DEGREES else RANGE_M100_100 in
  [ ("arm_shoulder_pan", mkMotor 1 "sts3215" norm_mode_body);
    ("arm_shoulder_lift", mkMotor 2 "sts3215" norm_mode_body);
    ("arm_elbow_flex", mkMotor 3 "sts3215" norm_mode_body);
    ("arm_wrist_flex", mkMotor 4 "sts3215" norm_mode_body);
    ("arm_wrist_roll", mkMotor 5 "sts3215" norm_mode_body);
    ("arm_gripper", mkMotor 6 "sts3215" RANGE_0_100);
    ("base_left_wheel", mkMotor 7 "sts3215" RANGE_M100_100);
    ("base_back_wheel", mkMotor 8 "sts3215" RANGE_M100_100);
    ("base_right_wheel", mkMotor 9 "sts3215" RANGE_M100_100) ]%string.

Definition arm_motors (cfg : LeKiwiConfig) : list string :=
  List.filter (fun motor => startswith motor "arm") (keys (motors cfg)).

Definition base_motors (cfg : LeKiwiConfig) : list string :=
  List.filter (fun motor => startswith motor "base") (keys (motors cfg)).

(** *** Calibration file *)

(** [_save_calibration(calibration)]: the directory is created outside the
    [try], the file is written inside it. [data] holds the five fields of
    every record, that is the records themselves. *)
Definition _save_calibration (fs : FileSystem)
    (calibration : gmap string MotorCalibration) : M () :=
  call (Mkdir "config") (fun tr => mkdir fs tr "config");;
  let data :=
    (fun cal => mkMotorCalibration (id cal) (drive_mode cal) (homing_offset cal)
                                   (range_min cal) (range_max cal))
      <$> calibration in
  try_except
    (call (JsonDump "config/calibration.json" data)
          (fun tr => json_dump fs tr "config/calibration.json" data)).

(** *** Connection state *)

(** [is_connected]: the bus and every camera. *)
Definition is_connected (rb : Robot) : bool :=
  bus_is_connected rb && forallb cam_is_connected (values (cameras rb)).

(** [is_calibrated] *)
Definition is_calibrated (rb : Robot) : bool := bus_is_calibrated rb.

(** *** Kinematics *)

Section Kinematics.
Local Open Scope R_scope.

(** Python's [round(x)] on a float: the nearest integer, ties to even. *)
Definition py_round (x : R) : Z :=
  let lo := Int_part x in
  let rest := x - IZR lo in
  if Rlt_dec rest (1 / 2) then lo
  else if Rlt_dec (1 / 2) rest then (lo + 1)%Z
  else if Z.even lo then lo else (lo + 1)%Z.

(** [_degps_to_raw(degps)] *)
Definition _degps_to_raw (degps : R) : Z :=
  let steps_per_deg := 4096.0 / 360.0 in
  let speed_in_steps := degps * steps_per_deg in
  let speed_int := py_round speed_in_steps in
  if (speed_int >? 0x7FFF)%Z then 0x7FFF%Z
  else if (speed_int <? - 0x8000)%Z then (- 0x8000)%Z
  else speed_int.

(** [_raw_to_degps(raw_speed)] *)
Definition _raw_to_degps (raw_speed : Z) : R :=
  let steps_per_deg := 4096.0 / 360.0 in
  IZR raw_speed / steps_per_deg.

(** Arrays of three floats, and 3x3 arrays as three rows. *)
Definition vec3 : Type := R * R * R.
Definition mat3 : Type := vec3 * vec3 * vec3.

Definition vmap (f : R -> R) (v : vec3) : vec3 :=
  let '(a, b, c) := v in (f a, f b, f c).

Definition dot (u v : vec3) : R :=
  let '(a, b, c) := u in
  let '(x, y, z) := v in
  a * x + b * y + c * z.

(** [m.dot(v)] *)
Definition mat_vec (m : mat3) (v : vec3) : vec3 :=
  let '(r1, r2, r3) := m in (dot r1 v, dot r2 v, dot r3 v).

(** [np.radians] *)
Definition radians (deg : R) : R := deg * (PI / 180).

(** [angles = np.radians(np.array([240, 0, 120]) - 90)] *)
Definition angles : vec3 :=
  (radians (240 - 90), radians (0 - 90), radians (120 - 90)).

(** [m = np.array([[np.cos(a), np.sin(a), base_radius] for a in angles])].
    In real numbers the cosine of the back wheel's angle is 0; numpy's is
    the float 6.1e-17 ([Binary64.libm_cos]). *)
Definition wheel_matrix (base_radius : R) : mat3 :=
  let row a := (cos a, sin a, base_radius) in
  let '(a1, a2, a3) := angles in
  (row a1, row a2, row a3).

(** The first half of [_body_to_wheel_raw]: [wheel_linear_speeds]. *)
Definition wheel_linear_speeds (x y theta base_radius : R) : vec3 :=
  let theta_rad := theta * (PI / 180.0) in
  let velocity_vector := (x, y, theta_rad) in
  let m := wheel_matrix base_radius in
  mat_vec m velocity_vector.

(** [wheel_degps] before any scaling. *)
Definition wheel_degps (x y theta wheel_radius base_radius : R) : vec3 :=
  let wheel_angular_speeds :=
    vmap (fun w => w / wheel_radius) (wheel_linear_speeds x y theta base_radius) in
  vmap (fun w => w * (180.0 / PI)) wheel_angular_speeds.

(** [raw_floats] and [max_raw_computed = max(raw_floats)]. *)
Definition raw_floats (degps : vec3) : vec3 :=
  let steps_per_deg := 4096.0 / 360.0 in
  vmap (fun d => Rabs d * steps_per_deg) degps.

Definition vmax (v : vec3) : R :=
  let '(a, b, c) := v in Rmax (Rmax a b) c.

Definition max_raw_computed (degps : vec3) : R := vmax (raw_floats degps).

(** The block "Scale if exceeds max". *)
Definition scale_wheel_degps (max_raw : Z) (degps : vec3) : vec3 :=
  if Rgt_dec (max_raw_computed degps) (IZR max_raw) then
    let scale := IZR max_raw / max_raw_computed degps in
    vmap (fun d => d * scale) degps
  else degps.

(** [_body_to_wheel_raw(x, y, theta, wheel_radius, base_radius, max_raw)].
    Total in real numbers; in binary64 a wheel speed that overflows ends
    the call with [ValueError], and a product next to a tie can round to
    the other tick ([Binary64._body_to_wheel_raw]). *)
Definition _body_to_wheel_raw
    (x y theta wheel_radius base_radius : R) (max_raw : Z) : dict Z :=
  let degps := wheel_degps x y theta wheel_radius base_radius in
  let '(d1, d2, d3) := scale_wheel_degps max_raw degps in
  [ ("base_left_wheel", _degps_to_raw d1);
    ("base_back_wheel", _degps_to_raw d2);
    ("base_right_wheel", _degps_to_raw d3) ]%string.

(** [np.linalg.inv] on a 3x3 array: the inverse matrix, [LinAlgError] on a
    singular one. *)
Definition det3 (m : mat3) : R :=
  let '((a, b, c), (d, e, f), (g, h, i)) := m in
  a * (e * i - f * h) - b * (d * i - f * g) + c * (d * h - e * g).

Definition adjugate (m : mat3) : mat3 :=
  let '((a, b, c), (d, e, f), (g, h, i)) := m in
  ((e * i - f * h, c * h - b * i, b * f - c * e),
   (f * g - d * i, a * i - c * g, c * d - a * f),
   (d * h - e * g, b * g - a * h, a * e - b * d)).

Definition linalg_inv (m : mat3) : result mat3 :=
  if Req_dec_T (det3 m) 0 then Raise LinAlgError
  else
    let '(r1, r2, r3) := adjugate m in
    let scale := vmap (fun c => c / det3 m) in
    Ok (scale r1, scale r2, scale r3).

(** [_wheel_raw_to_body(left, back, right, wheel_radius, base_radius)] *)
Definition _wheel_raw_to_body
    (left_wheel_speed back_wheel_speed right_wheel_speed : Z)
    (wheel_radius base_radius : R) : result (dict R) :=
  let wheel_degps :=
    (_raw_to_degps left_wheel_speed,
     _raw_to_degps back_wheel_speed,
     _raw_to_degps right_wheel_speed) in
  let wheel_radps := vmap (fun d => d * (PI / 180.0)) wheel_degps in
  let wheel_linear_speeds := vmap (fun w => w * wheel_radius) wheel_radps in
  let m := wheel_matrix base_radius in
  m_inv ← linalg_inv m;
  let '(x, y, theta_rad) := mat_vec m_inv wheel_linear_speeds in
  let theta := theta_rad * (180.0 / PI) in
  mret [ ("x.vel", x); ("y.vel", y); ("theta.vel", theta) ]%string.

(** The defaults of the keyword arguments. *)
Definition default_wheel_radius : R := 0.05.
Definition default_base_radius : R := 0.125.
Definition default_max_raw : Z := 3000.

End Kinematics.

(** *** Safety clamp and action pipeline *)

Section Pipeline.
Local Open Scope R_scope.

(** A limit on a relative move: a float, or [float("inf")]. *)
Inductive limit : Type :=
| Finite (max_rel : R)
| Infinity.

(** [np.sign] *)
Definition np_sign (x : R) : R :=
  if Rlt_dec 0 x then 1 else if Rlt_dec x 0 then -1 else 0.

(** The limit that applies to one motor:
    [max_rel = self.config.max_relative_target] and, for a dict,
    [max_rel = max_rel.get(motor_name, float("inf"))]. *)
Definition limit_for (max_rel : RelativeTarget) (motor_name : string) : limit :=
  match max_rel with
  | Scalar m => Finite m
  | PerMotor d =>
      match dict_get motor_name d with
      | Some m => Finite m
      | None => Infinity
      end
  end.

(** The goal after
    [if abs(g_pos - p_pos) > max_rel: goal = p_pos + np.sign(g_pos - p_pos) * max_rel].
    In real numbers the sum is exact; in binary64 it is the float nearest
    to it ([Binary64.clamp_goal]). *)
Definition clamp_goal (g_pos p_pos : R) (max_rel : limit) : R :=
  match max_rel with
  | Infinity => g_pos
  | Finite m =>
      if Rgt_dec (Rabs (g_pos - p_pos)) m
      then p_pos + np_sign (g_pos - p_pos) * m
      else g_pos
  end.

(** The loop [for key, g_pos in arm_goal_pos.items(): ...] of [send_action].
    Each key is visited once and only its own entry is assigned, so the loop
    maps over the items; a motor missing from [present_pos] raises. *)
Fixpoint clamp_goals (present_pos : dict R) (max_rel : RelativeTarget)
    (arm_goal_pos : dict R) : result (dict R) :=
  match arm_goal_pos with
  | [] => mret []
  | (key, g_pos) :: rest =>
      let motor_name := replace key ".pos" "" in
      p_pos ← dict_getitem motor_name present_pos;
      rest' ← clamp_goals present_pos max_rel rest;
      mret ((key, clamp_goal g_pos p_pos (limit_for max_rel motor_name)) :: rest')
  end.

Variable bus : Bus.

(** [send_action(action)] *)
Definition send_action (action : dict R) : M (dict R) :=
  rb ← get_robot;
  if negb (is_connected rb) then raise DeviceNotConnectedError else
  let arm_goal_pos := dict_filter_keys (fun k => endswith k ".pos") action in
  let base_goal_vel := dict_filter_keys (fun k => endswith k ".vel") action in
  x ← lift (dict_getitem "x.vel" base_goal_vel);
  y ← lift (dict_getitem "y.vel" base_goal_vel);
  theta ← lift (dict_getitem "theta.vel" base_goal_vel);
  let base_wheel_goal_vel :=
    _body_to_wheel_raw x y theta
      default_wheel_radius default_base_radius default_max_raw in
  arm_goal_pos ←
    match max_relative_target (config rb) with
    | None => mret arm_goal_pos
    | Some max_rel =>
        let arm := arm_motors (config rb) in
        present_pos ← call (SyncRead "Present_Position" arm)
                           (fun tr => sync_read bus tr "Present_Position" arm);
        lift (clamp_goals present_pos max_rel arm_goal_pos)
    end;
  let arm_goal_pos_raw :=
    dict_rekey (fun k => replace k ".pos" "") arm_goal_pos in
  let positions := map (prod_map Datatypes.id Float) arm_goal_pos_raw in
  let velocities := map (prod_map Datatypes.id Int) base_wheel_goal_vel in
  call (SyncWrite "Goal_Position" positions None)
       (fun tr => sync_write bus tr "Goal_Position" positions None);;
  call (SyncWrite "Goal_Velocity" velocities None)
       (fun tr => sync_write bus tr "Goal_Velocity" velocities None);;
  mret (dict_merge arm_goal_pos base_goal_vel).

(** [stop_base()] *)
Definition stop_base : M () :=
  rb ← get_robot;
  let zeros := dict_fromkeys (base_motors (config rb)) (Int 0) in
  call (SyncWrite "Goal_Velocity" zeros (Some 5%Z))
       (fun tr => sync_write bus tr "Goal_Velocity" zeros (Some 5%Z)).

End Pipeline.

(** *** Calibration *)

Section Calibration.
Local Open Scope Z_scope.

Variable bus : Bus.
Variable fs : FileSystem.

(** [OperatingMode.POSITION.value], an enumeration of the bus module. *)
Variable POSITION : Z.

(** [d[k]] on the dicts the bus hands back. *)
Definition getitem (k : string) (d : gmap string Z) : result Z :=
  match d !! k with
  | Some v => Ok v
  | None => Raise (KeyError k)
  end.

(** [for name in names: d[name] = v] *)
Definition set_all (names : list string) (v : Z) (d : gmap string Z)
    : gmap string Z :=
  fold_left (fun acc name => <[name := v]> acc) names d.

(** [motor in names] *)
Definition elem (motor : string) (names : list string) : bool :=
  existsb (String.eqb motor) names.

(** [any(keyword in motor for keyword in ["wheel", "wrist_roll"])] *)
Definition is_full_turn (motor : string) : bool :=
  existsb (fun keyword => contains keyword motor) ["wheel"; "wrist_roll"]%string.

(** The loop that builds [calibration] from [self.bus.motors.items()]. *)
Fixpoint build_calibration
    (homing_offsets range_mins range_maxes : gmap string Z)
    (items : dict Motor) (calibration : gmap string MotorCalibration)
    : result (gmap string MotorCalibration) :=
  match items with
  | [] => mret calibration
  | (name, motor) :: rest =>
      h ← getitem name homing_offsets;
      lo ← getitem name range_mins;
      hi ← getitem name range_maxes;
      build_calibration homing_offsets range_mins range_maxes rest
        (<[name := mkMotorCalibration (motor_id motor) 0 h lo hi]> calibration)
  end.

(** [self.bus.write("Operating_Mode", name, POSITION)] for each arm motor. *)
Fixpoint set_position_mode (names : list string) : M () :=
  match names with
  | [] => mret ()
  | name :: rest =>
      call (Write "Operating_Mode" name POSITION)
           (fun tr => write bus tr "Operating_Mode" name POSITION);;
      set_position_mode rest
  end.

(** [calibrate()]. The two [print]s and the logging are left out. *)
Definition calibrate : M () :=
  rb ← get_robot;
  let arm := arm_motors (config rb) in
  let base := base_motors (config rb) in
  let motors_ := arm ++ base in
  call (DisableTorque (Some arm)) (fun tr => disable_torque bus tr (Some arm));;
  set_position_mode arm;;
  call (Input "Move robot to the middle of its range of motion and press ENTER...")
       (fun _ => Ok ());;
  homing_offsets ← call (SetHalfTurnHomings arm)
                        (fun tr => set_half_turn_homings bus tr arm);
  let homing_offsets := set_all base 0 homing_offsets in
  let full_turn_motor := List.filter is_full_turn motors_ in
  let unknown_range_motors :=
    List.filter (fun motor => negb (elem motor full_turn_motor)) motors_ in
  ranges ← call (RecordRangesOfMotion unknown_range_motors)
                (fun tr => record_ranges_of_motion bus tr unknown_range_motors);
  let range_mins := set_all full_turn_motor 0 ranges.1 in
  let range_maxes := set_all full_turn_motor 4095 ranges.2 in
  calibration ← lift (build_calibration homing_offsets range_mins range_maxes
                                        (motors (config rb)) ∅);
  call (WriteCalibration calibration)
       (fun tr => write_calibration bus tr calibration);;
  _save_calibration fs calibration.

End Calibration.

End LeKiwi.

(** ** The float operations in binary64

    The definitions above read Python's floats as real numbers. This module
    evaluates the same lines of [lekiwi.py] in IEEE 754 binary64, with its
    rounding, infinities and nan, on the kernel's primitive floats. It is
    used on concrete inputs, to show where the code leaves the real-number
    reading: a sum that is rounded, a product that lands on the other side
    of a tie, an overflow. *)

Module Binary64.
Import Py.
Import Stdlib.Floats.Floats.
Local Open Scope float_scope.
Set Warnings "-inexact-float".

(** What [round] and the functions built on it raise. *)
Inductive error : Type :=
| ValueError      (* cannot convert float NaN to integer *)
| OverflowError.  (* cannot convert float infinity to integer *)

Inductive answer (A : Type) : Type :=
| Returns (a : A)
| Raises (e : error).
Arguments Returns {A} a.
Arguments Raises {A} e.

(** The integer nearest to [m * 2^e], ties to even. *)
Definition nearest_even (m : positive) (e : Z) : Z :=
  if (0 <=? e)%Z then (Z.pos m * 2 ^ e)%Z
  else
    let d := (2 ^ (- e))%Z in
    let q := (Z.pos m / d)%Z in
    let r := (Z.pos m mod d)%Z in
    if (2 * r <? d)%Z then q
    else if (d <? 2 * r)%Z then (q + 1)%Z
    else if Z.even q then q else (q + 1)%Z.

(** Python's [round(x)] on a float. *)
Definition py_round (x : float) : answer Z :=
  match Prim2SF x with
  | S754_zero _ => Returns 0%Z
  | S754_infinity _ => Raises OverflowError
  | S754_nan => Raises ValueError
  | S754_finite s m e =>
      let n := nearest_even m e in
      Returns (if s then (- n)%Z else n)
  end.

(** A Python [int] below [2^53] in magnitude, as the float it converts to. *)
Definition of_int (z : Z) : float :=
  if (z <? 0)%Z then - of_uint63 (Uint63.of_Z (- z))
  else of_uint63 (Uint63.of_Z z).

(** [np.pi] *)
Definition np_pi : float := 0x1.921fb54442d18p+1.

(** [np.sign]: 1, -1, 0 for a zero of either sign, and nan for nan. *)
Definition np_sign (x : float) : float :=
  if 0 <? x then 1 else if x <? 0 then -1 else if x =? 0 then 0 else x.

(** The body of the loop of the safety clamp for a finite limit:
    [if abs(g_pos - p_pos) > max_rel:
       goal = p_pos + np.sign(g_pos - p_pos) * max_rel]. *)
Definition clamp_goal (g_pos p_pos max_rel : float) : float :=
  if max_rel <? abs (g_pos - p_pos)
  then p_pos + np_sign (g_pos - p_pos) * max_rel
  else g_pos.

(** [_degps_to_raw(degps)] *)
Definition _degps_to_raw (degps : float) : answer Z :=
  let steps_per_deg := 4096.0 / 360.0 in
  let speed_in_steps := degps * steps_per_deg in
  match py_round speed_in_steps with
  | Raises e => Raises e
  | Returns speed_int =>
      Returns (if (speed_int >? 0x7FFF)%Z then 0x7FFF%Z
               else if (speed_int <? - 0x8000)%Z then (- 0x8000)%Z
               else speed_int)
  end.

(** Python's [max] on a list of three floats: the first item, replaced by
    each later item that compares greater. *)
Definition py_max (a b c : float) : float :=
  let m := if a <? b then b else a in
  if m <? c then c else m.

Section Kinematics.

(** [np.cos] and [np.sin], which numpy takes from the C library. *)
Variables np_cos np_sin : float -> float.

(** [np.radians(deg)] on an integer number of degrees. *)
Definition np_radians (deg : Z) : float := of_int deg * (np_pi / 180.0).

(** One row of [m] times [velocity_vector], summed from the left. *)
Definition row_dot (a base_radius x y theta_rad : float) : float :=
  np_cos a * x + np_sin a * y + base_radius * theta_rad.

(** [wheel_degps] before any scaling. *)
Definition wheel_degps (x y theta wheel_radius base_radius : float)
    : float * float * float :=
  let theta_rad := theta * (np_pi / 180.0) in
  let speed a :=
    row_dot a base_radius x y theta_rad / wheel_radius * (180.0 / np_pi) in
  (speed (np_radians (240 - 90)), speed (np_radians (0 - 90)),
   speed (np_radians (120 - 90))).

(** [max_raw_computed] *)
Definition max_raw_computed (degps : float * float * float) : float :=
  let steps_per_deg := 4096.0 / 360.0 in
  let '(d1, d2, d3) := degps in
  py_max (abs d1 * steps_per_deg) (abs d2 * steps_per_deg)
         (abs d3 * steps_per_deg).

(** The block "Scale if exceeds max". *)
Definition scale_wheel_degps (max_raw : Z) (degps : float * float * float)
    : float * float * float :=
  if of_int max_raw <? max_raw_computed degps then
    let scale := of_int max_raw / max_raw_computed degps in
    let '(d1, d2, d3) := degps in
    (d1 * scale, d2 * scale, d3 * scale)
  else degps.

(** [_body_to_wheel_raw(x, y, theta, wheel_radius, base_radius, max_raw)]:
    the three conversions are made from left to right, and the first that
    raises ends the call. *)
Definition _body_to_wheel_raw
    (x y theta wheel_radius base_radius : float) (max_raw : Z)
    : answer (dict Z) :=
  let degps := wheel_degps x y theta wheel_radius base_radius in
  let '(d1, d2, d3) := scale_wheel_degps max_raw degps in
  match _degps_to_raw d1 with
  | Raises e => Raises e
  | Returns left_wheel =>
  match _degps_to_raw d2 with
  | Raises e => Raises e
  | Returns back_wheel =>
  match _degps_to_raw d3 with
  | Raises e => Raises e
  | Returns right_wheel =>
      Returns [ ("base_left_wheel", left_wheel);
                ("base_back_wheel", back_wheel);
                ("base_right_wheel", right_wheel) ]%string
  end end end.

End Kinematics.

(** The cosines and sines of the three mounting angles as the C library
    returns them on the angles [np.radians] gives. *)
Definition libm_cos (a : float) : float :=
  if a =? np_radians 150 then -0.8660254037844387
  else if a =? np_radians (-90) then 6.123233995736766e-17
  else if a =? np_radians 30 then 0.8660254037844387
  else nan.

Definition libm_sin (a : float) : float :=
  if a =? np_radians 150 then 0.49999999999999994
  else if a =? np_radians (-90) then -1
  else if a =? np_radians 30 then 0.49999999999999994
  else nan.

End Binary64.
(** * Part II: properties *)

(** ** Register codec *)

Module CodecFacts.
Import Codec.
Local Open Scope Z_scope.

(** The docstring examples of the source. *)
Example encode_doc_neg : encode_sign_magnitude (-100) 15 = Ok 32868.
Proof. reflexivity. Qed.
Example encode_doc_pos : encode_sign_magnitude 100 15 = Ok 100.
Proof. reflexivity. Qed.
Example decode_doc_neg : decode_sign_magnitude 32868 15 = Ok (-100).
Proof. reflexivity. Qed.
Example decode_doc_pos : decode_sign_magnitude 100 15 = Ok 100.
Proof. reflexivity. Qed.

Lemma py_lshift_one (b : Z) : 0 <= b -> py_lshift 1 b = Ok (2 ^ b).
Proof.
  intros Hb. unfold py_lshift.
  destruct (Z.ltb_spec b 0) as [?|_]; [lia|].
  by rewrite Z.shiftl_1_l.
Qed.

(** A magnitude below [2^b] has no bit at or above position [b]. *)
Lemma small_testbit (m b i : Z) :
  0 <= m < 2 ^ b -> b <= i -> Z.testbit m i = false.
Proof.
  intros [Hm0 Hm] Hi.
  destruct (Z.eq_dec m 0) as [->|Hne]; [apply Z.bits_0|].
  apply Z.bits_above_log2; [lia|].
  assert (Z.log2 m < b); [|lia].
  apply Z.log2_lt_pow2; lia.
Qed.

Lemma land_sign_mask (m b : Z) :
  0 <= b -> 0 <= m < 2 ^ b -> Z.land (Z.lor m (2 ^ b)) (2 ^ b) = 2 ^ b.
Proof.
  intros Hb Hm. apply Z.bits_inj'; intros i Hi.
  rewrite Z.land_spec, Z.lor_spec, Z.pow2_bits_eqb by lia.
  destruct (Z.eqb_spec b i) as [->|Hne]; [by rewrite orb_true_r|].
  by rewrite andb_false_r.
Qed.

Lemma land_magnitude_mask (m b : Z) :
  0 <= b -> 0 <= m < 2 ^ b -> Z.land (Z.lor m (2 ^ b)) (2 ^ b - 1) = m.
Proof.
  intros Hb Hm. apply Z.bits_inj'; intros i Hi.
  replace (2 ^ b - 1) with (Z.ones b) by (rewrite Z.ones_equiv; lia).
  rewrite Z.land_spec, Z.lor_spec, Z.pow2_bits_eqb by lia.
  destruct (Z.lt_ge_cases i b) as [Hlt|Hge].
  - rewrite Z.ones_spec_low by lia.
    destruct (Z.eqb_spec b i); [lia|].
    by rewrite orb_false_r, andb_true_r.
  - rewrite Z.ones_spec_high by lia.
    rewrite andb_false_r. symmetry. by apply small_testbit with b.
Qed.

Lemma land_small_sign (m b : Z) :
  0 <= b -> 0 <= m < 2 ^ b -> Z.land m (2 ^ b) = 0.
Proof.
  intros Hb Hm. apply Z.bits_inj'; intros i Hi.
  rewrite Z.land_spec, Z.bits_0, Z.pow2_bits_eqb by lia.
  destruct (Z.eqb_spec b i) as [->|Hne]; [|by rewrite andb_false_r].
  rewrite (small_testbit m i i) by lia. done.
Qed.

Lemma land_small_magnitude (m b : Z) :
  0 <= b -> 0 <= m < 2 ^ b -> Z.land m (2 ^ b - 1) = m.
Proof.
  intros Hb Hm.
  replace (2 ^ b - 1) with (Z.ones b) by (rewrite Z.ones_equiv; lia).
  rewrite Z.land_ones by lia. apply Z.mod_small; lia.
Qed.

(** C1. Codec round trip: for every integer [v] and every sign-bit position
    [b >= 0] with [|v| < 2^b], decoding the encoding of [v] returns [v];
    neither call raises. *)
Theorem codec_round_trip (v b : Z) :
  0 <= b -> Z.abs v < 2 ^ b ->
  (encode_sign_magnitude v b ≫= fun raw => decode_sign_magnitude raw b) = Ok v.
Proof.
  intros Hb Hv.
  unfold encode_sign_magnitude, decode_sign_magnitude.
  rewrite py_lshift_one by done.
  assert (Hpow : 0 < 2 ^ b) by (apply Z.pow_pos_nonneg; lia).
  destruct (Z.ltb_spec v 0) as [Hneg|Hpos]; cbn.
  - rewrite land_sign_mask, land_magnitude_mask by lia.
    destruct (Z.eqb_spec (2 ^ b) 0) as [?|_]; [lia|].
    cbn. f_equal. lia.
  - rewrite land_small_sign, land_small_magnitude by lia.
    done.
Qed.

Lemma codec_round_trip_witness :
  (encode_sign_magnitude (-100) 15 ≫= fun raw => decode_sign_magnitude raw 15)
  = Ok (-100).
Proof. apply codec_round_trip; [lia | reflexivity]. Defined.

End CodecFacts.

(** ** Dictionaries and strings *)

Module PyFacts.
Import Py.

Section Dict.
Context {V : Type}.
Implicit Types (d e : dict V) (k : string) (v : V).

Lemma dict_get_None k d : dict_get k d = None <-> ~ In k (keys d).
Proof.
  induction d as [|[k' v'] d IH]; cbn; [tauto|].
  destruct (String.eqb_spec k k') as [->|Hne]; [split; [done|tauto]|].
  rewrite IH. split; [intros H [?|?]; [congruence|tauto] | tauto].
Qed.

Lemma dict_get_Some_In k v d : dict_get k d = Some v -> In (k, v) d.
Proof.
  induction d as [|[k' v'] d IH]; cbn; [done|].
  destruct (String.eqb_spec k k') as [->|Hne]; [intros [= ->]; by left|].
  intros H. right. by apply IH.
Qed.

Lemma dict_get_is_Some k d : In k (keys d) -> exists v, dict_get k d = Some v.
Proof.
  intros Hin. destruct (dict_get k d) as [v|] eqn:E; [by exists v|].
  by apply dict_get_None in E.
Qed.

(** In a dict (distinct keys) every item is what a lookup finds. *)
Lemma dict_get_In k v d :
  NoDup (keys d) -> In (k, v) d -> dict_get k d = Some v.
Proof.
  induction d as [|[k' v'] d IH]; cbn; [done|].
  intros Hnd [[= -> ->]|Hin].
  - by rewrite String.eqb_refl.
  - apply NoDup_cons in Hnd as [Hfresh Hnd].
    destruct (String.eqb_spec k k') as [->|Hne]; [|by apply IH].
    exfalso. apply Hfresh. apply list_elem_of_In. by apply (in_map fst _ (k', v)).
Qed.

Lemma dict_set_fresh k v d : ~ In k (keys d) -> dict_set k v d = d ++ [(k, v)].
Proof.
  induction d as [|[k' v'] d IH]; cbn; [done|].
  intros Hnin.
  destruct (String.eqb_spec k k') as [->|Hne]; [tauto|].
  rewrite IH; [done|tauto].
Qed.


Lemma keys_dict_set k v d k' :
  In k' (keys (dict_set k v d)) <-> k' = k \/ In k' (keys d).
Proof.
  induction d as [|[k0 v0] d IH]; cbn; [intuition|].
  destruct (String.eqb_spec k k0) as [->|Hne]; cbn; [intuition|].
  rewrite IH. intuition.
Qed.

Lemma keys_dict_update d e k :
  In k (keys (dict_update d e)) <-> In k (keys d) \/ In k (keys e).
Proof.
  unfold dict_update. revert d.
  induction e as [|[k0 v0] e IH]; intros d; cbn [fold_left].
  - cbn. tauto.
  - rewrite IH, keys_dict_set. cbn. intuition.
Qed.

(** Writing the items of a dict into another one with disjoint keys just
    appends them. *)
Lemma dict_update_app d e : NoDup (keys (d ++ e)) -> dict_update d e = d ++ e.
Proof.
  unfold dict_update. revert d.
  induction e as [|[k v] e IH]; intros d Hnd; cbn [fold_left fst snd];
    [by rewrite app_nil_r|].
  assert (Hfresh : ~ In k (keys d)).
  { unfold keys in *. rewrite map_app in Hnd. cbn in Hnd.
    apply NoDup_app in Hnd as (_ & Hdis & _).
    intros Hin. apply (Hdis k); [by apply list_elem_of_In | left]. }
  rewrite dict_set_fresh by done.
  rewrite IH; rewrite <- app_assoc; done.
Qed.

Lemma dict_update_nil e : NoDup (keys e) -> dict_update [] e = e.
Proof. intros. by apply (dict_update_app []). Qed.

Lemma keys_filter (p : string -> bool) d :
  keys (List.filter (fun kv => p kv.1) d) = List.filter p (keys d).
Proof.
  unfold keys. induction d as [|[k v] d IH]; cbn; [done|].
  destruct (p k); cbn; by rewrite IH.
Qed.

Lemma NoDup_filter (p : string -> bool) (l : list string) :
  NoDup l -> NoDup (List.filter p l).
Proof.
  induction 1 as [|x l Hx Hnd IH]; cbn; [constructor|].
  destruct (p x); [|done]. constructor; [|done].
  rewrite list_elem_of_In, filter_In, <- list_elem_of_In. tauto.
Qed.

(** On a dict the filtering comprehension is [filter]. *)
Lemma dict_filter_keys_filter (p : string -> bool) d :
  NoDup (keys d) ->
  dict_filter_keys p d = List.filter (fun kv => p kv.1) d.
Proof.
  intros Hnd. unfold dict_filter_keys.
  rewrite dict_update_nil; [done|].
  rewrite keys_filter. by apply NoDup_filter.
Qed.

Lemma keys_dict_filter_keys (p : string -> bool) d k :
  In k (keys (dict_filter_keys p d)) <-> In k (keys d) /\ p k = true.
Proof.
  unfold dict_filter_keys. rewrite keys_dict_update, keys_filter, filter_In.
  cbn. tauto.
Qed.


Lemma dict_get_filter (p : string -> bool) k d :
  dict_get k (List.filter (fun kv => p kv.1) d) =
  if p k then dict_get k d else None.
Proof.
  induction d as [|[k0 v0] d IH]; cbn; [by destruct (p k)|].
  destruct (p k0) eqn:Ep; cbn.
  - destruct (String.eqb_spec k k0) as [->|?]; [by rewrite Ep|done].
  - destruct (String.eqb_spec k k0) as [->|?]; [by rewrite IH, Ep|done].
Qed.






End Dict.


(** The string operations on the keys and names of the robot. *)
Example replace_position_key : replace "arm_gripper.pos" ".pos" "" = "arm_gripper".
Proof. reflexivity. Qed.
Example replace_every_occurrence : replace "a.pos.posx.po.pos" ".pos" "" = "ax.po".
Proof. reflexivity. Qed.
Example endswith_velocity_key : endswith "theta.vel" ".vel" = true.
Proof. reflexivity. Qed.
Example endswith_short : endswith "vel" ".vel" = false.
Proof. reflexivity. Qed.
Example contains_wrist_roll : contains "wrist_roll" "arm_wrist_roll" = true.
Proof. reflexivity. Qed.
Example contains_no_wheel : contains "wheel" "arm_wrist_flex" = false.
Proof. reflexivity. Qed.

End PyFacts.

(** ** Binary64: where the code leaves the real-number reading *)

Module Binary64Facts.
Import Stdlib.Floats.Floats.
Import Binary64.
Local Open Scope float_scope.
Set Warnings "-inexact-float".

(** The mounting angles as [np.radians] gives them. *)
Example np_radians_angles :
  (np_radians (240 - 90), np_radians (0 - 90), np_radians (120 - 90)) =
  (2.6179938779914944, -1.5707963267948966, 0.5235987755982988).
Proof. reflexivity. Qed.

(** The sum of the clamp is rounded: from present position 0.1 under
    limit 0.2, goal 1 is replaced by 0.30000000000000004, which is further
    than 0.2 from 0.1. Clamping that goal again gives the same float. *)
Example clamp_goal_rounded_up :
  clamp_goal 1 0.1 0.2 = 0.30000000000000004 /\
  (0.2 <? clamp_goal 1 0.1 0.2 - 0.1) = true /\
  clamp_goal (clamp_goal 1 0.1 0.2) 0.1 0.2 = clamp_goal 1 0.1 0.2.
Proof. repeat split; reflexivity. Qed.

(** The worked scenario in binary64: the back wheel is not exactly 0
    before rounding, and the commands are those of the real-number
    reading. *)
Example forward_scenario_binary64 :
  wheel_degps libm_cos libm_sin 0.1 0 0 0.05 0.125 =
    (-99.23920117592257, 7.016709298534876e-15, 99.23920117592257) /\
  _body_to_wheel_raw libm_cos libm_sin 0.1 0 0 0.05 0.125 3000 =
    Returns [ ("base_left_wheel", (-1129)%Z); ("base_back_wheel", 0%Z);
              ("base_right_wheel", 1129%Z) ]%string.
Proof. split; reflexivity. Qed.

(** A product on the other side of a tie: turning at 0.826171875 deg/s
    asks for 23.5 ticks per second on each wheel in real numbers; binary64
    computes 23.499999999999996 and the command is 23. *)
Example rotation_below_tie :
  (let '(d, _, _) :=
     wheel_degps libm_cos libm_sin 0 0 0.826171875 0.05 0.125 in
   d * (4096.0 / 360.0)) = 23.499999999999996 /\
  _body_to_wheel_raw libm_cos libm_sin 0 0 0.826171875 0.05 0.125 3000 =
    Returns [ ("base_left_wheel", 23%Z); ("base_back_wheel", 23%Z);
              ("base_right_wheel", 23%Z) ]%string.
Proof. split; reflexivity. Qed.

(** Far above the cap the scaling works as in real numbers: asked to turn
    at 10000 deg/s, every wheel gets the cap. *)
Example fast_rotation_binary64 :
  _body_to_wheel_raw libm_cos libm_sin 0 0 10000 0.05 0.125 3000 =
    Returns [ ("base_left_wheel", 3000%Z); ("base_back_wheel", 3000%Z);
              ("base_right_wheel", 3000%Z) ]%string.
Proof. reflexivity. Qed.


End Binary64Facts.

(** ** The robot *)

Module LeKiwiFacts.
Import Py PyFacts LeKiwi.

(** Unfolding one step of a method. *)
Ltac run :=
  unfold mbind, mret, M_bind, M_ret, result_bind, result_ret,
         get_robot, raise, lift, call; cbn beta iota.

(** Evaluating the string operations on literals. *)
Ltac eval_strings :=
  repeat match goal with
  | |- context [replace ?k ?old ?new] =>
      let v := eval vm_compute in (replace k old new) in
      change (replace k old new) with v
  | |- context [endswith ?k ?suffix] =>
      let v := eval vm_compute in (endswith k suffix) in
      change (endswith k suffix) with v
  end.

(** Decimal literals as fractions, and [field] with its side conditions
    among the hypotheses or numeric. *)
Ltac decimals :=
  unfold Q2R; cbn [QArith_base.Qnum QArith_base.Qden].

Ltac solve_field :=
  decimals; field; repeat split; first [assumption | lra].

(** *** Robots and buses to try things on *)

Definition plain_config : LeKiwiConfig :=
  mkConfig "/dev/ttyACM0" None true false.

(** The two cameras of the default configuration. *)
Definition two_cameras (front wrist : bool) : dict Camera :=
  [ ("front", mkCamera front); ("wrist", mkCamera wrist) ]%string.

Definition robot_up (cfg : LeKiwiConfig) : Robot :=
  mkRobot cfg true true (two_cameras true true) [].

Definition robot_down (cfg : LeKiwiConfig) : Robot :=
  mkRobot cfg false false (two_cameras false false) [].

(** A bus on which every call succeeds: every joint is read at [present],
    every homing offset is 100 and every recorded range is [1000 .. 3000]. *)
Definition steady_bus (present : R) : Bus :=
  {| sync_read := fun _ _ names => Ok (map (fun n => (n, present)) names);
     sync_write := fun _ _ _ _ => Ok ();
     write := fun _ _ _ _ => Ok ();
     disable_torque := fun _ _ => Ok ();
     enable_torque := fun _ => Ok ();
     set_half_turn_homings := fun _ names =>
       Ok (list_to_map (map (fun n => (n, 100%Z)) names));
     record_ranges_of_motion := fun _ names =>
       Ok (list_to_map (map (fun n => (n, 1000%Z)) names),
           list_to_map (map (fun n => (n, 3000%Z)) names));
     write_calibration := fun _ _ => Ok () |}.

(** A file system on which everything works. *)
Definition steady_fs : FileSystem :=
  {| mkdir := fun _ _ => Ok (); json_dump := fun _ _ _ => Ok () |}.

(** The motor lists computed by [__init__] do not depend on the
    configuration. *)
Example arm_motors_value (cfg : LeKiwiConfig) :
  arm_motors cfg =
  [ "arm_shoulder_pan"; "arm_shoulder_lift"; "arm_elbow_flex";
    "arm_wrist_flex"; "arm_wrist_roll"; "arm_gripper" ]%string.
Proof. reflexivity. Qed.

Example base_motors_value (cfg : LeKiwiConfig) :
  base_motors cfg =
  [ "base_left_wheel"; "base_back_wheel"; "base_right_wheel" ]%string.
Proof. reflexivity. Qed.

(** *** Connection state *)

Lemma forallb_values_spec (cams : dict Camera) :
  forallb cam_is_connected (values cams) = true <->
  forall name cam, In (name, cam) cams -> cam_is_connected cam = true.
Proof.
  unfold values. rewrite forallb_forall. split.
  - intros H name cam Hin. apply H. by apply (in_map snd _ (name, cam)).
  - intros H cam [[name cam'] [<- Hin]]%in_map_iff. by apply (H name).
Qed.

(** C6. Connected-state composition: [is_connected] holds exactly when the
    bus reports connected and every configured camera reports connected. In
    particular, with two configured cameras, a connected bus and one camera
    that is not connected, [is_connected] is false. *)
Theorem is_connected_composition (rb : Robot) :
  (is_connected rb = true <->
   bus_is_connected rb = true /\
   forall name cam, In (name, cam) (cameras rb) -> cam_is_connected cam = true)
  /\
  (forall n1 c1 n2 c2,
     cameras rb = [(n1, c1); (n2, c2)] ->
     bus_is_connected rb = true ->
     cam_is_connected c1 = false \/ cam_is_connected c2 = false ->
     is_connected rb = false).
Proof.
  assert (Hiff : is_connected rb = true <->
    bus_is_connected rb = true /\
    forall name cam, In (name, cam) (cameras rb) -> cam_is_connected cam = true).
  { unfold is_connected. by rewrite andb_true_iff, forallb_values_spec. }
  split; [exact Hiff|].
  intros n1 c1 n2 c2 Hcams _ Hone.
  apply not_true_is_false. rewrite Hiff. intros [_ Hall].
  destruct Hone as [H|H].
  - rewrite (Hall n1 c1) in H; [done|]. rewrite Hcams. by left.
  - rewrite (Hall n2 c2) in H; [done|]. rewrite Hcams. right. by left.
Qed.

Lemma is_connected_composition_witness :
  is_connected (mkRobot plain_config true true (two_cameras true false) [])
  = false.
Proof.
  eapply (proj2 (is_connected_composition _)); [reflexivity | reflexivity |].
  right. reflexivity.
Defined.

(** *** Emergency stop *)

Definition base_zeros : dict num :=
  [ ("base_left_wheel", Int 0); ("base_back_wheel", Int 0);
    ("base_right_wheel", Int 0) ]%string.

(** C8 (amended: [stop_base] raises what the bus write raises). In every
    state of the robot, connected or not, [stop_base] tests no connection
    flag and issues exactly one bus call, the write of velocity 0 to the
    three base motors with retry count 5. Its outcome is the answer of the
    bus to that write: it raises an exception, [DeviceNotConnectedError]
    included, exactly when the bus write raises it. *)
Theorem stop_base_always_attempted (bus : Bus) (rb : Robot) :
  trace (stop_base bus rb).2 =
    trace rb ++ [SyncWrite "Goal_Velocity" base_zeros (Some 5%Z)]
  /\
  (stop_base bus rb).1 =
    sync_write bus (trace rb) "Goal_Velocity" base_zeros (Some 5%Z)
  /\
  (forall e,
     (stop_base bus rb).1 = Raise e <->
     sync_write bus (trace rb) "Goal_Velocity" base_zeros (Some 5%Z) = Raise e)
  /\
  config (stop_base bus rb).2 = config rb.
Proof.
  assert (Heq : stop_base bus rb =
    (sync_write bus (trace rb) "Goal_Velocity" base_zeros (Some 5%Z),
     log (SyncWrite "Goal_Velocity" base_zeros (Some 5%Z)) rb)) by reflexivity.
  rewrite Heq. cbn [fst snd]. repeat split; done.
Qed.

(** A bus that is not connected: it answers every write with
    [DeviceNotConnectedError]. *)
Definition unplugged_bus : Bus :=
  {| sync_read := fun _ _ _ => Raise DeviceNotConnectedError;
     sync_write := fun _ _ _ _ => Raise DeviceNotConnectedError;
     write := fun _ _ _ _ => Raise DeviceNotConnectedError;
     disable_torque := fun _ _ => Raise DeviceNotConnectedError;
     enable_torque := fun _ => Raise DeviceNotConnectedError;
     set_half_turn_homings := fun _ _ => Raise DeviceNotConnectedError;
     record_ranges_of_motion := fun _ _ => Raise DeviceNotConnectedError;
     write_calibration := fun _ _ => Raise DeviceNotConnectedError |}.

(** C8 as stated fails: on a bus that is not connected the write of
    [stop_base] is attempted and its [DeviceNotConnectedError] reaches the
    caller. *)
Lemma stop_base_raises_not_connected :
  stop_base unplugged_bus (robot_down plain_config) =
  (Raise DeviceNotConnectedError,
   log (SyncWrite "Goal_Velocity" base_zeros (Some 5%Z))
       (robot_down plain_config)).
Proof. reflexivity. Qed.

(** *** Safety clamp *)

Section Clamp.
Local Open Scope R_scope.

(** Splitting on the comparisons of floats met in a goal. *)
Ltac split_R :=
  repeat match goal with
  | |- context [Rgt_dec ?a ?b] => destruct (Rgt_dec a b)
  | |- context [Rlt_dec ?a ?b] => destruct (Rlt_dec a b)
  | |- context [Rcase_abs ?a] => destruct (Rcase_abs a)
  | H : context [Rcase_abs ?a] |- _ => destruct (Rcase_abs a)
  end.

(** [abs(delta) <= limit], with nothing to check for an infinite limit. *)
Definition within (lim : limit) (delta : R) : Prop :=
  match lim with
  | Finite m => Rabs delta <= m
  | Infinity => True
  end.

Definition nonneg (lim : limit) : Prop :=
  match lim with
  | Finite m => 0 <= m
  | Infinity => True
  end.

(** No configured limit is negative. *)
Definition limits_nonneg (max_rel : RelativeTarget) : Prop :=
  match max_rel with
  | Scalar m => 0 <= m
  | PerMotor d => Forall (fun kv => 0 <= kv.2) d
  end.

Lemma limit_for_nonneg (max_rel : RelativeTarget) (motor_name : string) :
  limits_nonneg max_rel -> nonneg (limit_for max_rel motor_name).
Proof.
  destruct max_rel as [m|d]; cbn; [done|].
  intros Hall. destruct (dict_get motor_name d) as [m|] eqn:E; cbn; [|done].
  apply dict_get_Some_In in E.
  rewrite Forall_forall in Hall. apply (Hall (motor_name, m)).
  by apply list_elem_of_In.
Qed.

(** One goal: bounded move, same direction, untouched when within bounds. *)
Lemma clamp_goal_safe (g_pos p_pos : R) (lim : limit) :
  nonneg lim ->
  let goal := clamp_goal g_pos p_pos lim in
  within lim (goal - p_pos) /\
  (np_sign (goal - p_pos) = np_sign (g_pos - p_pos) \/ goal - p_pos = 0) /\
  (within lim (g_pos - p_pos) -> goal = g_pos).
Proof.
  destruct lim as [m|]; cbn; [|intros _; repeat split; by left].
  intros Hm. unfold clamp_goal, np_sign, Rabs.
  split_R; repeat split; intros; try lra; try (left; lra); try (right; lra);
    unfold Rabs in *; split_R; try lra.
  all: destruct (Req_dec m 0) as [->|Hne];
       [right; lra | left; unfold np_sign; split_R; lra].
Qed.

(** [abs(delta) <= limit] as binary64 keeps it. The code replaces a goal
    by the float nearest to [p_pos + limit] or [p_pos - limit], and tests
    the float nearest to [g_pos - p_pos]; each is off by at most one part in
    [2^53] of its value, so the move can exceed the limit by that much and
    no more. *)
Definition within_rounded (lim : limit) (p_pos delta : R) : Prop :=
  match lim with
  | Finite m => Rabs delta <= m + (Rabs p_pos + m) / 2 ^ 52
  | Infinity => True
  end.

Lemma within_within_rounded (lim : limit) (p_pos delta : R) :
  nonneg lim -> within lim delta -> within_rounded lim p_pos delta.
Proof.
  destruct lim as [m|]; cbn; [|done]. intros Hm Hd.
  assert (0 < 2 ^ 52) by (apply pow_lt; lra).
  assert (0 <= (Rabs p_pos + m) / 2 ^ 52).
  { apply Rmult_le_pos; [pose proof (Rabs_pos p_pos); lra|].
    by apply Rlt_le, Rinv_0_lt_compat. }
  lra.
Qed.

(** The same for the whole loop: what each returned entry satisfies. *)
Definition clamped_entry (present_pos : dict R) (max_rel : RelativeTarget)
    (before after : string * R) : Prop :=
  let motor_name := replace before.1 ".pos" "" in
  let lim := limit_for max_rel motor_name in
  after.1 = before.1 /\
  exists p_pos,
    dict_get motor_name present_pos = Some p_pos /\
    within_rounded lim p_pos (after.2 - p_pos) /\
    (np_sign (after.2 - p_pos) = np_sign (before.2 - p_pos)
     \/ after.2 - p_pos = 0) /\
    (within lim (before.2 - p_pos) -> after.2 = before.2).

(** C2 (amended: for limits that are not negative, and up to the rounding
    of the sum). For every configured limit that is not negative (a global
    scalar, or a per-motor mapping read with default infinity for absent
    motors), every goal that the clamping loop of [send_action] lets
    through differs from the present position of its motor by at most the
    limit, up to the rounding of the floating-point sum (at most
    [(|present| + limit) / 2^52] more), in the direction of the requested
    move (or not at all), and a goal already within the limit is
    unchanged. *)
Theorem safety_clamp (present_pos : dict R) (max_rel : RelativeTarget)
    (arm_goal_pos clamped : dict R) :
  limits_nonneg max_rel ->
  clamp_goals present_pos max_rel arm_goal_pos = Ok clamped ->
  Forall2 (clamped_entry present_pos max_rel) arm_goal_pos clamped.
Proof.
  intros Hlim. revert clamped.
  induction arm_goal_pos as [|[key g_pos] rest IH]; intros clamped; cbn.
  - intros [= <-]. constructor.
  - unfold dict_getitem.
    destruct (dict_get (replace key ".pos" "") present_pos) as [p_pos|] eqn:Ep;
      cbn; [|done].
    destruct (clamp_goals present_pos max_rel rest) as [rest'|] eqn:Er;
      cbn; [|done].
    intros [= <-]. constructor; [|by apply IH].
    split; [done|]. exists p_pos. split; [done|]. cbn.
    pose proof (limit_for_nonneg max_rel (replace key ".pos" "") Hlim) as Hnn.
    destruct (clamp_goal_safe g_pos p_pos _ Hnn) as (Hin & Hsign & Hsame).
    split; [by apply within_within_rounded|]. by split.
Qed.

(** The clamp at work: goal 10 from present position 0 under limit 5. *)
Lemma safety_clamp_witness :
  Forall2 (clamped_entry [("arm_gripper", 0)]%string (Scalar 5))
    [("arm_gripper.pos", 10)]%string [("arm_gripper.pos", 5)]%string.
Proof.
  apply safety_clamp; [cbn; lra|].
  unfold clamp_goals. eval_strings. cbn. unfold clamp_goal.
  destruct (Rgt_dec (Rabs (10 - 0)) 5) as [_|H].
  - unfold np_sign. destruct (Rlt_dec 0 (10 - 0)) as [_|H]; [|lra].
    do 4 f_equal. lra.
  - exfalso. apply H. rewrite Rabs_pos_eq; lra.
Defined.

(** With a negative limit the clamp fires on every goal and pushes it the
    other way: goal 1 from present position 0 under limit -1 becomes -1,
    which is further than the limit allows and opposite to the request. *)
Lemma safety_clamp_negative_limit :
  clamp_goals [("arm_gripper", 0)]%string (Scalar (-1))
              [("arm_gripper.pos", 1)]%string
    = Ok [("arm_gripper.pos", 0 + 1 * -1)]%string
  /\ ~ Rabs ((0 + 1 * -1) - 0) <= -1
  /\ np_sign ((0 + 1 * -1) - 0) <> np_sign (1 - 0)
  /\ (0 + 1 * -1) - 0 <> 0.
Proof.
  split; [|split; [|split]].
  - unfold clamp_goals. eval_strings. cbn.
    unfold clamp_goal, np_sign, Rabs. split_R; (done || lra).
  - unfold Rabs. split_R; lra.
  - unfold np_sign. split_R; lra.
  - lra.
Qed.

End Clamp.

(** *** Velocity keys of an action *)

Section VelocityKeys.
Local Open Scope R_scope.

Definition is_vel (k : string) : bool := endswith k ".vel".
Definition is_pos (k : string) : bool := endswith k ".pos".

(** A velocity key is in [base_goal_vel] exactly when it is in the action. *)
Lemma base_goal_vel_None (key : string) (action : dict R) :
  is_vel key = true ->
  dict_get key (dict_filter_keys is_vel action) = None <->
  dict_get key action = None.
Proof.
  intros Hvel. rewrite !dict_get_None, keys_dict_filter_keys. tauto.
Qed.

Lemma getitem_None {V} (key : string) (d : dict V) :
  dict_get key d = None -> dict_getitem key d = Raise (KeyError key).
Proof. unfold dict_getitem. by intros ->. Qed.

Lemma getitem_Some {V} (key : string) (d : dict V) :
  dict_get key d <> None -> exists v, dict_getitem key d = Ok v.
Proof.
  unfold dict_getitem. destruct (dict_get key d) as [v|]; [by exists v|done].
Qed.

(** C10. On a connected robot, [send_action] on an action that lacks one of
    the keys ["x.vel"], ["y.vel"], ["theta.vel"] raises [KeyError] for a
    missing one of them, and the robot is left as it was: no event, hence no
    bus read or write, has happened. An action with arm positions only
    cannot be sent. *)
Theorem send_action_needs_velocity_keys
    (bus : Bus) (rb : Robot) (action : dict R) :
  is_connected rb = true ->
  dict_get "x.vel" action = None \/ dict_get "y.vel" action = None
    \/ dict_get "theta.vel" action = None ->
  exists key,
    In key ["x.vel"; "y.vel"; "theta.vel"]%string /\
    dict_get key action = None /\
    send_action bus action rb = (Raise (KeyError key), rb).
Proof.
  intros Hconn Hmissing.
  unfold send_action. run. rewrite Hconn. cbn [negb].
  fold is_vel. fold is_pos.
  set (base_goal_vel := dict_filter_keys is_vel action).
  destruct (dict_get "x.vel" action) as [x|] eqn:Ex.
  2:{ exists "x.vel"%string. split; [by left|]. split; [done|].
      rewrite getitem_None; [done|]. by apply base_goal_vel_None. }
  destruct (getitem_Some "x.vel" base_goal_vel) as [x' ->].
  { subst base_goal_vel. rewrite base_goal_vel_None by done. by rewrite Ex. }
  destruct (dict_get "y.vel" action) as [y|] eqn:Ey.
  2:{ exists "y.vel"%string. split; [right; by left|]. split; [done|].
      rewrite getitem_None; [done|]. by apply base_goal_vel_None. }
  destruct (getitem_Some "y.vel" base_goal_vel) as [y' ->].
  { subst base_goal_vel. rewrite base_goal_vel_None by done. by rewrite Ey. }
  destruct (dict_get "theta.vel" action) as [theta|] eqn:Et.
  2:{ exists "theta.vel"%string. split; [right; right; by left|]. split; [done|].
      rewrite getitem_None; [done|]. by apply base_goal_vel_None. }
  destruct Hmissing as [?|[?|?]]; done.
Qed.

Lemma send_action_needs_velocity_keys_witness :
  exists key,
    In key ["x.vel"; "y.vel"; "theta.vel"]%string /\
    dict_get key [("arm_gripper.pos", 10)]%string = None /\
    send_action (steady_bus 0) [("arm_gripper.pos", 10)]%string
                (robot_up plain_config)
      = (Raise (KeyError key), robot_up plain_config).
Proof.
  apply send_action_needs_velocity_keys; [reflexivity | left; reflexivity].
Defined.

End VelocityKeys.

(** *** Calibration *)

Section CalibrationFacts.
Local Open Scope Z_scope.

Lemma elem_In (motor : string) (names : list string) :
  elem motor names = true <-> In motor names.
Proof.
  unfold elem. rewrite existsb_exists. split.
  - by intros (x & Hin & ->%String.eqb_eq).
  - intros Hin. exists motor. by rewrite String.eqb_refl.
Qed.

Lemma set_all_lookup (names : list string) (v : Z) (d : gmap string Z)
    (k : string) :
  set_all names v d !! k = if elem k names then Some v else d !! k.
Proof.
  unfold set_all. revert d.
  induction names as [|n names IH]; intros d; cbn [fold_left]; [done|].
  rewrite IH.
  change (elem k (n :: names)) with (String.eqb k n || elem k names).
  destruct (String.eqb_spec k n) as [->|Hne]; cbn [orb].
  - rewrite lookup_insert_eq. by destruct (elem n names).
  - by rewrite lookup_insert_ne.
Qed.

(** The record built for one motor, when its three lookups succeed. *)
Definition record_for (homing_offsets range_mins range_maxes : gmap string Z)
    (name : string) (motor : Motor) : option MotorCalibration :=
  h ← homing_offsets !! name;
  lo ← range_mins !! name;
  hi ← range_maxes !! name;
  Some (mkMotorCalibration (motor_id motor) 0 h lo hi).

Lemma build_calibration_ok (h lo hi : gmap string Z) (items : dict Motor) :
  forall acc : gmap string MotorCalibration,
  NoDup (keys items) ->
  (forall name motor, In (name, motor) items ->
     is_Some (record_for h lo hi name motor)) ->
  exists cal,
    build_calibration h lo hi items acc = Ok cal /\
    forall name,
      cal !! name =
      match dict_get name items with
      | Some motor => record_for h lo hi name motor
      | None => acc !! name
      end.
Proof.
  induction items as [|[n m] items IH]; intros acc Hnd Hall; cbn.
  - by exists acc.
  - apply NoDup_cons in Hnd as [Hfresh Hnd].
    destruct (Hall n m) as [r Hr]; [by left|].
    unfold record_for in Hr. unfold getitem.
    destruct (h !! n) as [hv|] eqn:Eh; [|done].
    destruct (lo !! n) as [lov|] eqn:El; [|done].
    destruct (hi !! n) as [hiv|] eqn:Ei; [|done]. cbn in Hr |- *.
    destruct (IH (<[n := mkMotorCalibration (motor_id m) 0 hv lov hiv]> acc))
      as (cal & Hcal & Hlook); [done | by intros; apply Hall; right |].
    exists cal. split; [done|]. intros name. rewrite Hlook.
    destruct (String.eqb_spec name n) as [->|Hne].
    + assert (E : dict_get n items = None).
      { apply dict_get_None. by rewrite <- list_elem_of_In. }
      rewrite E, lookup_insert_eq. unfold record_for. by rewrite Eh, El, Ei.
    + destruct (dict_get name items); [done|].
      by rewrite lookup_insert_ne.
Qed.

Lemma snoc_app {A} (l : list A) (a : A) (m : list A) :
  (l ++ [a]) ++ m = l ++ a :: m.
Proof. by rewrite <- app_assoc. Qed.

Lemma trace_log (ev : Event) (rb : Robot) : trace (log ev rb) = trace rb ++ [ev].
Proof. reflexivity. Qed.

(** What [_save_calibration] dumps is the calibration itself. *)
Lemma save_data_id (calibration : gmap string MotorCalibration) :
  (fun cal => mkMotorCalibration (id cal) (drive_mode cal) (homing_offset cal)
                                 (range_min cal) (range_max cal))
    <$> calibration = calibration.
Proof.
  apply map_eq. intros name. rewrite lookup_fmap.
  destruct (calibration !! name) as [[]|]; done.
Qed.

Lemma motors_NoDup (cfg : LeKiwiConfig) : NoDup (keys (motors cfg)).
Proof.
  cbn.
  repeat (apply NoDup_cons_2;
          [rewrite list_elem_of_In; cbn; intuition discriminate|]).
  apply NoDup_nil_2.
Qed.

(** A bus on which the calls of the calibration procedure succeed, and whose
    answers cover the motors it was asked about. *)
Definition bus_cooperates (bus : Bus) : Prop :=
  (forall tr names, disable_torque bus tr names = Ok ()) /\
  (forall tr data_name motor value, write bus tr data_name motor value = Ok ()) /\
  (forall tr names, exists offsets,
     set_half_turn_homings bus tr names = Ok offsets /\
     forall n, In n names -> is_Some (offsets !! n)) /\
  (forall tr names, exists mins maxes,
     record_ranges_of_motion bus tr names = Ok (mins, maxes) /\
     forall n, In n names -> is_Some (mins !! n) /\ is_Some (maxes !! n)) /\
  (forall tr cal, write_calibration bus tr cal = Ok ()).

Definition arm_names : list string :=
  [ "arm_shoulder_pan"; "arm_shoulder_lift"; "arm_elbow_flex";
    "arm_wrist_flex"; "arm_wrist_roll"; "arm_gripper" ]%string.

Definition bounded_names : list string :=
  [ "arm_shoulder_pan"; "arm_shoulder_lift"; "arm_elbow_flex";
    "arm_wrist_flex"; "arm_gripper" ]%string.

Definition base_names : list string :=
  [ "base_left_wheel"; "base_back_wheel"; "base_right_wheel" ]%string.

Definition full_turn_names : list string :=
  [ "arm_wrist_roll"; "base_left_wheel"; "base_back_wheel";
    "base_right_wheel" ]%string.

Definition homing_prompt : string :=
  "Move robot to the middle of its range of motion and press ENTER...".

(** The events of [calibrate] up to the moment the operator confirms the
    homing pose. *)
Definition homing_trace (rb : Robot) (POSITION : Z) : list Event :=
  trace rb ++
  [DisableTorque (Some arm_names)] ++
  map (fun name => Write "Operating_Mode" name POSITION) arm_names ++
  [Input homing_prompt].

(** What one record of the finished calibration looks like. *)
Definition finalized (offsets mins maxes : gmap string Z)
    (name : string) (motor : Motor) (record : MotorCalibration) : Prop :=
  id record = motor_id motor /\
  drive_mode record = 0 /\
  (if is_full_turn name
   then range_min record = 0 /\ range_max record = 4095
   else mins !! name = Some (range_min record) /\
        maxes !! name = Some (range_max record)) /\
  (if startswith name "base"
   then homing_offset record = 0
   else offsets !! name = Some (homing_offset record)).

Ltac eval_elem :=
  repeat match goal with
  | |- context [elem ?k ?l] =>
      let v := eval vm_compute in (elem k l) in
      change (elem k l) with v
  end.

(** Replacing the lookups in the answers of the bus by what they find. *)
Ltac use_answers Hoff Hran :=
  repeat match goal with
  | |- context [_ !! ?k] =>
      first
        [ let H := fresh in
          destruct (Hoff k) as [? H]; [cbv; tauto|]; rewrite H
        | let H1 := fresh in
          let H2 := fresh in
          destruct (Hran k) as [[? H1] [? H2]]; [cbv; tauto|];
          rewrite ?H1, ?H2; clear H1 H2 ]
  end.

Lemma finalized_record (offsets mins maxes : gmap string Z)
    (base full : list string) (name : string) (motor : Motor)
    (record : MotorCalibration) :
  record_for (set_all base 0 offsets) (set_all full 0 mins)
             (set_all full 4095 maxes) name motor = Some record ->
  is_full_turn name = elem name full ->
  startswith name "base" = elem name base ->
  finalized offsets mins maxes name motor record.
Proof.
  unfold record_for, finalized. rewrite !set_all_lookup.
  intros Hrecord -> ->.
  destruct (elem name base), (elem name full); cbn in Hrecord;
    repeat match type of Hrecord with
    | context [?m !! name] =>
        destruct (m !! name); cbn in Hrecord; [|discriminate Hrecord]
    end;
    injection Hrecord as <-; cbn; done.
Qed.

(** C5. Calibration finalization. On a bus whose calls succeed, and when the
    directory of the calibration file can be made, every run of [calibrate]
    completes, and the calibration it writes to the bus and saves
    has one record per motor with: the motor's id; drive mode 0; bounds
    [0, 4095] for every full-turn motor (name containing "wheel" or
    "wrist_roll") whatever the bus recorded; exactly the recorded minimum and
    maximum for every other motor; the homing offset the bus captured at the
    homing step for arm motors and homing offset 0 for base motors. *)
Theorem calibration_finalization
    (bus : Bus) (fs : FileSystem) (POSITION : Z) (rb : Robot) :
  bus_cooperates bus ->
  (forall tr path, mkdir fs tr path = Ok ()) ->
  exists (offsets mins maxes : gmap string Z)
         (calibration : gmap string MotorCalibration) (rb' : Robot),
    calibrate bus fs POSITION rb = (Ok (), rb') /\
    set_half_turn_homings bus (homing_trace rb POSITION) arm_names
      = Ok offsets /\
    record_ranges_of_motion bus
      (homing_trace rb POSITION ++ [SetHalfTurnHomings arm_names])
      bounded_names = Ok (mins, maxes) /\
    trace rb' =
      homing_trace rb POSITION ++
      [SetHalfTurnHomings arm_names; RecordRangesOfMotion bounded_names;
       WriteCalibration calibration; Mkdir "config";
       JsonDump "config/calibration.json" calibration] /\
    forall name motor, In (name, motor) (motors (config rb)) ->
      exists record,
        calibration !! name = Some record /\
        finalized offsets mins maxes name motor record.
Proof.
  intros (Hdis & Hwrite & Hhoming & Hranges & Hcal) Hmkdir.
  unfold calibrate. run.
  change (arm_motors (config rb)) with arm_names.
  change (base_motors (config rb)) with base_names.
  change (List.filter is_full_turn _) with full_turn_names.
  change (List.filter (fun motor => negb (elem motor _)) _) with bounded_names.
  rewrite Hdis. cbn [arm_names set_position_mode]. run.
  rewrite !Hwrite. cbn [trace log].
  match goal with |- context [set_half_turn_homings bus ?tr ?names] =>
    destruct (Hhoming tr names) as (offsets & Eoff & Hoff);
    rewrite Eoff end.
  match goal with |- context [record_ranges_of_motion bus ?tr ?names] =>
    destruct (Hranges tr names) as (mins & maxes & Eran & Hran);
    rewrite Eran end.
  exists offsets, mins, maxes. cbn [fst snd trace log].
  fold base_names. fold full_turn_names.
  assert (Hsome : forall name motor, In (name, motor) (motors (config rb)) ->
    is_Some (record_for (set_all base_names 0 offsets)
                        (set_all full_turn_names 0 mins)
                        (set_all full_turn_names 4095 maxes) name motor)).
  { intros name motor Hin. unfold record_for. rewrite !set_all_lookup.
    cbn in Hin.
    repeat (destruct Hin as [Heq|Hin];
      [injection Heq as <- <-; eval_elem; cbn beta iota;
       use_answers Hoff Hran; cbn [mbind option_bind]; done|]).
    done. }
  destruct (build_calibration_ok _ _ _ (motors (config rb)) ∅
              (motors_NoDup _) Hsome) as (cal & Ecal & Hlook).
  rewrite Ecal. rewrite Hcal. cbn [trace log].
  unfold _save_calibration, try_except. run. rewrite Hmkdir, save_data_id.
  exists cal.
  eexists (log (JsonDump "config/calibration.json" cal) _).
  split; [by destruct (json_dump fs _ _ _)|].
  unfold homing_trace. cbn [arm_names map app].
  repeat rewrite snoc_app in Eoff. repeat rewrite snoc_app in Eran.
  split; [exact Eoff|].
  split; [rewrite <- app_assoc; exact Eran|].
  split.
  { rewrite !trace_log, !snoc_app, <- app_assoc. reflexivity. }
  intros name motor Hin.
  pose proof (dict_get_In name motor _ (motors_NoDup _) Hin) as Eget.
  specialize (Hlook name). rewrite Eget in Hlook.
  destruct (Hsome name motor Hin) as [record Hrecord].
  exists record. split; [congruence|].
  apply (finalized_record _ _ _ _ _ _ _ _ Hrecord);
    cbn in Hin;
    repeat (destruct Hin as [Heq|Hin];
            [injection Heq as <- <-; vm_compute; reflexivity|]); done.
Qed.

Lemma const_answer_lookup (names : list string) (v : Z) (n : string) :
  In n names ->
  is_Some ((list_to_map (map (fun n => (n, v)) names) : gmap string Z) !! n).
Proof.
  induction names as [|m names IH]; cbn [map]; [done|].
  rewrite list_to_map_cons.
  intros [->|Hin].
  - rewrite lookup_insert_eq. by eexists.
  - destruct (decide (m = n)) as [->|Hne].
    + rewrite lookup_insert_eq. by eexists.
    + rewrite lookup_insert_ne by done. by apply IH.
Qed.

Lemma steady_bus_cooperates (present : R) : bus_cooperates (steady_bus present).
Proof.
  repeat split; cbn; try done.
  - intros _ names. eexists. split; [reflexivity|].
    intros n Hin. by apply const_answer_lookup.
  - intros _ names. do 2 eexists. split; [reflexivity|].
    intros n Hin. split; by apply const_answer_lookup.
Qed.

Lemma calibration_finalization_witness :
  exists (offsets mins maxes : gmap string Z)
         (calibration : gmap string MotorCalibration) (rb' : Robot),
    calibrate (steady_bus 0) steady_fs 0 (robot_up plain_config)
      = (Ok (), rb') /\
    set_half_turn_homings (steady_bus 0)
      (homing_trace (robot_up plain_config) 0) arm_names = Ok offsets /\
    record_ranges_of_motion (steady_bus 0)
      (homing_trace (robot_up plain_config) 0 ++ [SetHalfTurnHomings arm_names])
      bounded_names = Ok (mins, maxes) /\
    trace rb' =
      homing_trace (robot_up plain_config) 0 ++
      [SetHalfTurnHomings arm_names; RecordRangesOfMotion bounded_names;
       WriteCalibration calibration; Mkdir "config";
       JsonDump "config/calibration.json" calibration] /\
    forall name motor,
      In (name, motor) (motors (config (robot_up plain_config))) ->
      exists record,
        calibration !! name = Some record /\
        finalized offsets mins maxes name motor record.
Proof.
  apply calibration_finalization; [apply steady_bus_cooperates | done].
Defined.

End CalibrationFacts.

(** *** Kinematics: numbers *)

Section Numbers.
Local Open Scope R_scope.

Lemma Rabs_le_iff (x b : R) : Rabs x <= b <-> - b <= x <= b.
Proof. unfold Rabs. destruct (Rcase_abs x); lra. Qed.

Lemma Rabs_lt_iff (x b : R) : Rabs x < b <-> - b < x < b.
Proof. unfold Rabs. destruct (Rcase_abs x); lra. Qed.

Lemma PI_bounds : 3.1415 < PI < 3.1416.
Proof.
  pose proof (PI_2_3_7_ineq 2) as [Hlo Hhi].
  unfold sum_f_R0, tg_alt, PI_2_3_7_tg, Ratan_seq in Hlo, Hhi.
  cbn [Nat.mul Nat.add pow INR] in Hlo, Hhi.
  split; lra.
Qed.

Lemma sqrt3_bounds : 1.73205 < sqrt 3 < 1.73206.
Proof.
  split.
  - apply Rsqr_incrst_0; [|lra|apply sqrt_pos].
    rewrite Rsqr_sqrt by lra. unfold Rsqr. lra.
  - apply Rsqr_incrst_0; [|apply sqrt_pos|lra].
    rewrite Rsqr_sqrt by lra. unfold Rsqr. lra.
Qed.

Lemma sqrt3_sqr : sqrt 3 * sqrt 3 = 3.
Proof. apply sqrt_sqrt. lra. Qed.

(** The three mounting angles are 150, -90 and 30 degrees. *)
Lemma angles_value :
  angles = (PI - PI / 6, - (PI / 2), PI / 6).
Proof. unfold angles, radians. repeat f_equal; field. Qed.

(** The rows of the mapping matrix. *)
Lemma wheel_matrix_value (base_radius : R) :
  wheel_matrix base_radius =
    ((- (sqrt 3 / 2), 1 / 2, base_radius),
     (0, -1, base_radius),
     (sqrt 3 / 2, 1 / 2, base_radius)).
Proof.
  unfold wheel_matrix. rewrite angles_value.
  rewrite Rtrigo_facts.cos_pi_minus, sin_PI_x, cos_neg, sin_neg.
  by rewrite cos_PI6, sin_PI6, cos_PI2, sin_PI2.
Qed.

(** [round]: within one half of its argument, and the identity on integers. *)
Lemma py_round_error (x : R) : Rabs (IZR (py_round x) - x) <= 1 / 2.
Proof.
  unfold py_round.
  destruct (base_Int_part x) as [Hlo Hhi].
  set (lo := Int_part x) in *.
  repeat match goal with
  | |- context [Rlt_dec ?a ?b] => destruct (Rlt_dec a b)
  | |- context [Z.even ?a] => destruct (Z.even a)
  end; rewrite ?plus_IZR; apply Rabs_le_iff; lra.
Qed.

Lemma py_round_near (x : R) (n : Z) :
  Rabs (x - IZR n) < 1 / 2 -> py_round x = n.
Proof.
  intros Hnear. apply Rabs_lt_iff in Hnear as [H1 H2].
  pose proof (py_round_error x) as Herr.
  apply Rabs_le_iff in Herr as [H3 H4].
  assert (py_round x < n + 1)%Z by (apply lt_IZR; rewrite plus_IZR; lra).
  assert (n < py_round x + 1)%Z by (apply lt_IZR; rewrite plus_IZR; lra).
  lia.
Qed.

Lemma py_round_IZR (n : Z) : py_round (IZR n) = n.
Proof. apply py_round_near. rewrite Rminus_diag, Rabs_R0. lra. Qed.

Lemma py_round_bound (x : R) (c : Z) :
  Rabs x <= IZR c -> (- c <= py_round x <= c)%Z.
Proof.
  intros Hx. apply Rabs_le_iff in Hx as [H1 H2].
  pose proof (py_round_error x) as Herr.
  apply Rabs_le_iff in Herr as [H3 H4].
  split.
  - assert (- c - 1 < py_round x)%Z; [|lia].
    apply lt_IZR. rewrite minus_IZR, opp_IZR. lra.
  - assert (py_round x < c + 1)%Z; [|lia].
    apply lt_IZR. rewrite plus_IZR. lra.
Qed.

(** No 16-bit saturation for a speed already within a cap below [0x7FFF]. *)
Lemma _degps_to_raw_unsaturated (degps : R) (cap : Z) :
  (cap <= 0x7FFF)%Z ->
  Rabs degps * (4096.0 / 360.0) <= IZR cap ->
  _degps_to_raw degps = py_round (degps * (4096.0 / 360.0)) /\
  (- cap <= _degps_to_raw degps <= cap)%Z.
Proof.
  intros Hcap Hd.
  assert (Hb : (- cap <= py_round (degps * (4096.0 / 360.0)) <= cap)%Z).
  { apply py_round_bound. rewrite Rabs_mult.
    rewrite (Rabs_pos_eq (4096.0 / 360.0)) by lra. done. }
  unfold _degps_to_raw.
  destruct (Z.gtb_spec (py_round (degps * (4096.0 / 360.0))) 0x7FFF); [lia|].
  destruct (Z.ltb_spec (py_round (degps * (4096.0 / 360.0))) (- 0x8000)); [lia|].
  done.
Qed.

End Numbers.

(** *** Kinematics: uniform scaling *)

Section Scaling.
Local Open Scope R_scope.

Lemma max_raw_computed_scaled (v : vec3) (s : R) :
  0 <= s ->
  max_raw_computed (vmap (fun d => d * s) v) = s * max_raw_computed v.
Proof.
  intros Hs. destruct v as [[a b] c].
  unfold max_raw_computed, raw_floats, vmax, vmap.
  rewrite !Rabs_mult, (Rabs_pos_eq s) by done.
  rewrite <- !RmaxRmult by done. f_equal; [f_equal|]; ring.
Qed.

Lemma raw_floats_le_max (v : vec3) :
  let '(a, b, c) := raw_floats v in
  a <= max_raw_computed v /\ b <= max_raw_computed v /\ c <= max_raw_computed v.
Proof.
  destruct v as [[a b] c]. unfold max_raw_computed, raw_floats, vmax, vmap.
  repeat split.
  - eapply Rle_trans; [apply Rmax_l|apply Rmax_l].
  - eapply Rle_trans; [apply Rmax_r|apply Rmax_l].
  - apply Rmax_r.
Qed.

(** The scaling block on any vector of wheel speeds. *)
Lemma scale_wheel_degps_spec (max_raw : Z) (v : vec3) :
  (0 <= max_raw)%Z ->
  max_raw_computed v > IZR max_raw ->
  let scale := IZR max_raw / max_raw_computed v in
  0 <= scale /\
  scale_wheel_degps max_raw v = vmap (fun d => d * scale) v /\
  max_raw_computed (scale_wheel_degps max_raw v) = IZR max_raw.
Proof.
  intros Hcap%IZR_le Hover scale.
  assert (Hscale : 0 <= scale).
  { unfold scale. apply Rmult_le_pos; [lra|].
    apply Rlt_le, Rinv_0_lt_compat. lra. }
  assert (Hdef : scale_wheel_degps max_raw v = vmap (fun d => d * scale) v).
  { unfold scale_wheel_degps. by destruct (Rgt_dec _ _). }
  repeat split; [done..|].
  rewrite Hdef, max_raw_computed_scaled by done.
  unfold scale. field. lra.
Qed.

Lemma scale_wheel_degps_within (max_raw : Z) (v : vec3) :
  (0 <= max_raw)%Z ->
  max_raw_computed (scale_wheel_degps max_raw v) <= IZR max_raw.
Proof.
  intros Hcap. unfold scale_wheel_degps.
  destruct (Rgt_dec (max_raw_computed v) (IZR max_raw)) as [Hover|Hunder].
  - destruct (scale_wheel_degps_spec max_raw v Hcap Hover) as (_ & Hdef & Heq).
    rewrite <- Hdef, Heq. lra.
  - lra.
Qed.

(** The raw commands when the cap itself fits 16 bits: each is the rounding
    of its own scaled speed, nothing is cut afterwards. *)
Definition rounded_commands (v : vec3) : dict Z :=
  let '(d1, d2, d3) := v in
  [ ("base_left_wheel", py_round (d1 * (4096.0 / 360.0)));
    ("base_back_wheel", py_round (d2 * (4096.0 / 360.0)));
    ("base_right_wheel", py_round (d3 * (4096.0 / 360.0))) ]%string.

Lemma _body_to_wheel_raw_unsaturated
    (x y theta wheel_radius base_radius : R) (max_raw : Z) :
  (0 <= max_raw <= 0x7FFF)%Z ->
  _body_to_wheel_raw x y theta wheel_radius base_radius max_raw =
  rounded_commands
    (scale_wheel_degps max_raw (wheel_degps x y theta wheel_radius base_radius)).
Proof.
  intros [Hcap0 Hcap]. unfold _body_to_wheel_raw, rounded_commands.
  pose proof (scale_wheel_degps_within max_raw
                (wheel_degps x y theta wheel_radius base_radius) Hcap0) as Hmax.
  pose proof (raw_floats_le_max
                (scale_wheel_degps max_raw
                   (wheel_degps x y theta wheel_radius base_radius))) as Hle.
  destruct (scale_wheel_degps _ _) as [[d1 d2] d3].
  cbn [raw_floats vmap] in Hle. destruct Hle as (H1 & H2 & H3).
  destruct (_degps_to_raw_unsaturated d1 max_raw Hcap) as [-> _]; [lra|].
  destruct (_degps_to_raw_unsaturated d2 max_raw Hcap) as [-> _]; [lra|].
  destruct (_degps_to_raw_unsaturated d3 max_raw Hcap) as [-> _]; [lra|].
  done.
Qed.

(** Velocities and a geometry far from the limits of binary64: nothing
    computed from them overflows. *)
Definition tame_velocity (x y theta : R) : Prop :=
  (-1000000 <= x <= 1000000) /\
  (-1000000 <= y <= 1000000) /\
  (-1000000 <= theta <= 1000000).

Definition tame_geometry (wheel_radius base_radius : R) : Prop :=
  (1 / 1000 <= wheel_radius <= 1000) /\
  (-1000 <= base_radius <= 1000).


(** A command that is the rounding of a wheel speed to a whole raw tick. *)
Definition near_tick (command : Z) (degps : R) : Prop :=
  Rabs (IZR command - degps * (4096.0 / 360.0)) <= 1 / 2 + 1 / 1000.


Lemma near_tick_py_round (degps : R) :
  near_tick (py_round (degps * (4096.0 / 360.0))) degps.
Proof.
  unfold near_tick.
  pose proof (py_round_error (degps * (4096.0 / 360.0))). lra.
Qed.





End Scaling.

(** *** Kinematics: closed forms and the worked scenario *)

Section Scenario.
Local Open Scope R_scope.

Lemma PI_neq0 : PI <> 0.
Proof. pose proof PI_bounds. lra. Qed.

(** A pure rotation drives the three wheels alike. *)
Lemma wheel_degps_rotation (theta wheel_radius base_radius : R) :
  wheel_radius <> 0 ->
  wheel_degps 0 0 theta wheel_radius base_radius =
  (base_radius * theta / wheel_radius,
   base_radius * theta / wheel_radius,
   base_radius * theta / wheel_radius).
Proof.
  intros Hr. pose proof PI_neq0.
  unfold wheel_degps, wheel_linear_speeds. rewrite wheel_matrix_value.
  cbn [mat_vec dot vmap].
  f_equal; [f_equal|]; solve_field.
Qed.

Lemma vmax_same (a : R) : vmax (a, a, a) = a.
Proof. unfold vmax. rewrite !(Rmax_left a a); lra. Qed.



(** The ratio that carries the scenario: sqrt 3 / pi. *)
Lemma sqrt3_over_PI_bounds : 0.55132 < sqrt 3 / PI < 0.55135.
Proof.
  pose proof PI_bounds as [Hp1 Hp2]. pose proof sqrt3_bounds as [Hs1 Hs2].
  split.
  - apply Rmult_lt_reg_r with PI; [lra|].
    unfold Rdiv. rewrite Rmult_assoc, Rinv_l by lra. nra.
  - apply Rmult_lt_reg_r with PI; [lra|].
    unfold Rdiv. rewrite Rmult_assoc, Rinv_l by lra. nra.
Qed.

Lemma wheel_linear_speeds_scenario :
  wheel_linear_speeds 0.1 0 0 0.125 = (- (sqrt 3 / 20), 0, sqrt 3 / 20).
Proof.
  unfold wheel_linear_speeds. rewrite wheel_matrix_value.
  cbn [mat_vec dot]. f_equal; [f_equal|]; solve_field.
Qed.

Lemma wheel_degps_scenario :
  wheel_degps 0.1 0 0 0.05 0.125 =
  (- (180 * (sqrt 3 / PI)), 0, 180 * (sqrt 3 / PI)).
Proof.
  pose proof PI_neq0.
  unfold wheel_degps. rewrite wheel_linear_speeds_scenario.
  cbn [vmap]. f_equal; [f_equal|]; solve_field.
Qed.

(** [v] approximates the reference value [ref]: relative error at most
    one in a thousand. *)
Definition approx (v ref : R) : Prop := Rabs (v - ref) <= Rabs ref / 1000.

Ltac solve_approx :=
  unfold approx, Rabs; repeat destruct (Rcase_abs _); lra.

(** C9. The worked forward-kinematics scenario: for x = 0.1 m/s, y = 0,
    theta = 0 with wheel radius 0.05, base radius 0.125 and cap 3000, the rows
    of the mapping are those of the angles 150, -90 and 30 degrees; the
    linear wheel speeds are -0.0866, 0 and 0.0866 m/s, the wheel speeds in
    degrees per second -99.3, 0 and 99.3, and the raw ticks per second -1130,
    0 and 1130, each up to a relative error of one in a thousand (the back
    wheel exactly 0); the largest raw magnitude is below 3000, so nothing is
    scaled, and the commands returned are -1129, 0 and 1129. *)
Theorem forward_kinematics_scenario :
  angles = (radians 150, radians (-90), radians 30) /\
  (let '(l1, l2, l3) := wheel_linear_speeds 0.1 0 0 0.125 in
   approx l1 (-0.0866) /\ l2 = 0 /\ approx l3 0.0866) /\
  (let '(d1, d2, d3) := wheel_degps 0.1 0 0 0.05 0.125 in
   approx d1 (-99.3) /\ d2 = 0 /\ approx d3 99.3 /\
   approx (d1 * (4096.0 / 360.0)) (-1130) /\
   d2 * (4096.0 / 360.0) = 0 /\
   approx (d3 * (4096.0 / 360.0)) 1130) /\
  max_raw_computed (wheel_degps 0.1 0 0 0.05 0.125) < 3000 /\
  scale_wheel_degps 3000 (wheel_degps 0.1 0 0 0.05 0.125)
    = wheel_degps 0.1 0 0 0.05 0.125 /\
  _body_to_wheel_raw 0.1 0 0 0.05 0.125 3000 =
    [ ("base_left_wheel", -1129); ("base_back_wheel", 0);
      ("base_right_wheel", 1129) ]%string%Z.
Proof.
  pose proof sqrt3_bounds as [Hs1 Hs2].
  pose proof sqrt3_over_PI_bounds as [Hq1 Hq2].
  assert (Hmax : max_raw_computed (wheel_degps 0.1 0 0 0.05 0.125) < 3000).
  { rewrite wheel_degps_scenario.
    unfold max_raw_computed, raw_floats, vmax. cbn [vmap].
    set (q := sqrt 3 / PI) in *.
    rewrite Rabs_Ropp, Rabs_R0, (Rabs_pos_eq (180 * q)) by lra.
    repeat apply Rmax_lub_lt; lra. }
  assert (Hscale : scale_wheel_degps 3000 (wheel_degps 0.1 0 0 0.05 0.125)
                   = wheel_degps 0.1 0 0 0.05 0.125).
  { unfold scale_wheel_degps. destruct (Rgt_dec _ _); [lra|done]. }
  split; [|split; [|split; [|split; [|split]]]]; try done.
  - unfold angles. repeat f_equal; lra.
  - rewrite wheel_linear_speeds_scenario.
    repeat split; try done; solve_approx.
  - rewrite wheel_degps_scenario. set (q := sqrt 3 / PI) in *.
    repeat split; try lra; solve_approx.
  - rewrite _body_to_wheel_raw_unsaturated by lia.
    rewrite Hscale, wheel_degps_scenario. unfold rounded_commands.
    set (q := sqrt 3 / PI) in *.
    rewrite (py_round_near _ (-1129)), (py_round_near _ 0),
            (py_round_near _ 1129); [done|apply Rabs_lt_iff; lra..].
Qed.

End Scenario.

(** *** Kinematics: the inverse transform and the round trip *)

Section RoundTrip.
Local Open Scope R_scope.

Lemma det3_wheel_matrix (base_radius : R) :
  det3 (wheel_matrix base_radius) = 3 * sqrt 3 * base_radius / 2.
Proof. rewrite wheel_matrix_value. unfold det3. field. Qed.

Lemma div_eq (a d t : R) : d <> 0 -> a = t * d -> a / d = t.
Proof. intros Hd ->. by field. Qed.

(** The inverse of the mapping matrix. *)
Lemma linalg_inv_wheel_matrix (base_radius : R) :
  base_radius <> 0 ->
  linalg_inv (wheel_matrix base_radius) =
  Ok ((- (sqrt 3 / 3), 0, sqrt 3 / 3),
      (1 / 3, - (2 / 3), 1 / 3),
      (1 / (3 * base_radius), 1 / (3 * base_radius), 1 / (3 * base_radius))).
Proof.
  intros Hb. pose proof sqrt3_bounds as [Hs1 Hs2]. pose proof sqrt3_sqr as Hsq.
  assert (Hdet : 3 * sqrt 3 * base_radius / 2 <> 0).
  { intros H. assert (H' : sqrt 3 * base_radius = 0) by lra.
    apply Rmult_integral in H' as [?|?]; [lra|done]. }
  unfold linalg_inv. rewrite det3_wheel_matrix.
  destruct (Req_dec_T _ 0) as [?|_]; [done|].
  rewrite wheel_matrix_value. cbn [adjugate vmap].
  set (s := sqrt 3) in *.
  f_equal. (f_equal; [f_equal|]); (f_equal; [f_equal|]);
    apply div_eq; try done.
  all: try (field_simplify; [|done..]).
  all: try (replace (s ^ 2) with 3 by (rewrite <- Hsq; ring)).
  all: try (field; done).
Qed.

(** Forward, then back: the wheel commands of a body velocity are read by
    wheel name, as [get_observation] reads them, and turned into a body
    velocity again; defaults for the geometry and the cap. *)
Definition round_trip (x y theta : R) : result (dict R) :=
  let wheel_raw :=
    _body_to_wheel_raw x y theta
      default_wheel_radius default_base_radius default_max_raw in
  left ← dict_getitem "base_left_wheel" wheel_raw;
  back ← dict_getitem "base_back_wheel" wheel_raw;
  right ← dict_getitem "base_right_wheel" wheel_raw;
  _wheel_raw_to_body left back right default_wheel_radius default_base_radius.

(** The linear speed the inverse transform attributes to a raw reading. *)
Definition linear_of_raw (raw : Z) (wheel_radius : R) : R :=
  _raw_to_degps raw * (PI / 180.0) * wheel_radius.

Lemma _wheel_raw_to_body_value (left back right : Z)
    (wheel_radius base_radius : R) :
  base_radius <> 0 ->
  let w1 := linear_of_raw left wheel_radius in
  let w2 := linear_of_raw back wheel_radius in
  let w3 := linear_of_raw right wheel_radius in
  _wheel_raw_to_body left back right wheel_radius base_radius =
  Ok [ ("x.vel", - (sqrt 3 / 3) * w1 + 0 * w2 + sqrt 3 / 3 * w3);
       ("y.vel", 1 / 3 * w1 + - (2 / 3) * w2 + 1 / 3 * w3);
       ("theta.vel",
        (1 / (3 * base_radius) * w1 + 1 / (3 * base_radius) * w2
         + 1 / (3 * base_radius) * w3) * (180.0 / PI)) ]%string.
Proof.
  intros Hb. unfold _wheel_raw_to_body.
  rewrite linalg_inv_wheel_matrix by done. reflexivity.
Qed.

Lemma round_trip_unfold (x y theta : R) :
  max_raw_computed
    (wheel_degps x y theta default_wheel_radius default_base_radius)
    <= IZR default_max_raw ->
  round_trip x y theta =
  let '(d1, d2, d3) :=
    wheel_degps x y theta default_wheel_radius default_base_radius in
  _wheel_raw_to_body
    (py_round (d1 * (4096.0 / 360.0))) (py_round (d2 * (4096.0 / 360.0)))
    (py_round (d3 * (4096.0 / 360.0)))
    default_wheel_radius default_base_radius.
Proof.
  intros Hunder. unfold round_trip.
  rewrite _body_to_wheel_raw_unsaturated by (unfold default_max_raw; lia).
  unfold scale_wheel_degps. destruct (Rgt_dec _ _) as [?|_]; [lra|].
  destruct (wheel_degps _ _ _ _ _) as [[d1 d2] d3]. reflexivity.
Qed.

(** The inverse matrix undoes the mapping, and passes on an error [e] on the
    wheel speeds linearly. *)
Lemma inverse_of_forward (x y t b e1 e2 e3 : R) :
  b <> 0 ->
  let s := sqrt 3 in
  let wl1 := - (s / 2) * x + 1 / 2 * y + b * t in
  let wl2 := 0 * x + -1 * y + b * t in
  let wl3 := s / 2 * x + 1 / 2 * y + b * t in
  - (s / 3) * (wl1 + e1) + 0 * (wl2 + e2) + s / 3 * (wl3 + e3)
    = x + s / 3 * (e3 - e1) /\
  1 / 3 * (wl1 + e1) + - (2 / 3) * (wl2 + e2) + 1 / 3 * (wl3 + e3)
    = y + (e1 - 2 * e2 + e3) / 3 /\
  1 / (3 * b) * (wl1 + e1) + 1 / (3 * b) * (wl2 + e2) + 1 / (3 * b) * (wl3 + e3)
    = t + (e1 + e2 + e3) / (3 * b).
Proof.
  intros Hb s wl1 wl2 wl3. subst wl1 wl2 wl3.
  assert (Hsq : s * s * x = 3 * x) by (unfold s; rewrite sqrt3_sqr; ring).
  repeat split; [nra | lra | by field].
Qed.

(** A wheel speed that went through rounding to whole ticks comes back with
    an error of about half a tick. *)
Lemma linear_of_near_tick (wl wheel_radius : R) (command : Z) :
  wheel_radius <> 0 ->
  near_tick command (wl / wheel_radius * (180.0 / PI)) ->
  exists e,
    Rabs e <= 1 / 2 + 1 / 1000 /\
    linear_of_raw command wheel_radius = wl + e * (PI * wheel_radius / 2048).
Proof.
  intros Hr Hnear. pose proof PI_neq0.
  set (z := wl / wheel_radius * (180.0 / PI) * (4096.0 / 360.0)) in *.
  exists (IZR command - z). split; [exact Hnear|].
  unfold linear_of_raw, _raw_to_degps.
  replace (IZR command) with (z + (IZR command - z)) at 1 by ring.
  generalize (IZR command - z). intros e. unfold z. solve_field.
Qed.

(** The body velocity read back from three commands is close to [v]. *)
Definition reads_back (body : result (dict R)) (x y theta : R) : Prop :=
  exists x' y' theta',
    body = Ok [ ("x.vel", x'); ("y.vel", y'); ("theta.vel", theta') ]%string /\
    Rabs (x' - x) <= 1 / 1000 /\
    Rabs (y' - y) <= 1 / 1000 /\
    Rabs (theta' - theta) <= 9 / 500.

(** The inverse transform on any three commands that are the wheel speeds
    of [v] rounded to whole ticks, whichever way a tie went. *)
Lemma inverse_of_near_ticks (x y theta : R) (c1 c2 c3 : Z) :
  (let '(d1, d2, d3) :=
     wheel_degps x y theta default_wheel_radius default_base_radius in
   near_tick c1 d1 /\ near_tick c2 d2 /\ near_tick c3 d3) ->
  reads_back
    (_wheel_raw_to_body c1 c2 c3 default_wheel_radius default_base_radius)
    x y theta.
Proof.
  unfold wheel_degps, wheel_linear_speeds. rewrite wheel_matrix_value.
  cbn [mat_vec dot vmap].
  unfold default_wheel_radius, default_base_radius.
  intros (Hn1 & Hn2 & Hn3).
  rewrite _wheel_raw_to_body_value by lra. cbv zeta.
  do 3 eexists. split; [reflexivity|].
  pose proof PI_bounds as [Hp1 Hp2]. pose proof sqrt3_bounds as [Hs1 Hs2].
  set (t := theta * (PI / 180.0)) in *.
  destruct (linear_of_near_tick _ 0.05 c1 ltac:(lra) Hn1) as (e1 & He1 & ->).
  destruct (linear_of_near_tick _ 0.05 c2 ltac:(lra) Hn2) as (e2 & He2 & ->).
  destruct (linear_of_near_tick _ 0.05 c3 ltac:(lra) Hn3) as (e3 & He3 & ->).
  destruct (inverse_of_forward x y t 0.125
              (e1 * (PI * 0.05 / 2048)) (e2 * (PI * 0.05 / 2048))
              (e3 * (PI * 0.05 / 2048))) as (-> & -> & ->); [lra|].
  apply Rabs_le_iff in He1, He2, He3.
  set (c := PI * 0.05 / 2048) in *.
  assert (Hc : 0 < c < 0.0000767) by (unfold c; lra).
  assert (Hc1 : - (0.501 * c) <= e1 * c <= 0.501 * c) by nra.
  assert (Hc2 : - (0.501 * c) <= e2 * c <= 0.501 * c) by nra.
  assert (Hc3 : - (0.501 * c) <= e3 * c <= 0.501 * c) by nra.
  repeat split; apply Rabs_le_iff.
  - set (d := e3 * c - e1 * c) in *.
    assert (Hd : - (1.002 * c) <= d <= 1.002 * c) by (unfold d; lra).
    replace (x + sqrt 3 / 3 * d - x) with (sqrt 3 * d / 3) by lra.
    assert (- (1.73206 * (1.002 * c)) <= sqrt 3 * d <= 1.73206 * (1.002 * c))
      by nra.
    lra.
  - lra.
  - replace ((t + (e1 * c + e2 * c + e3 * c) / (3 * 0.125)) * (180.0 / PI) - theta)
      with ((e1 + e2 + e3) * (0.05 * 180 / (2048 * (3 * 0.125)))).
    2:{ unfold t, c. pose proof PI_neq0. solve_field. }
    lra.
Qed.

(** C4 (amended: the tolerance on theta is 0.018 deg/s, not 1e-3). For
    every body velocity whose wheel speeds stay within the saturation cap,
    the forward transform followed by the inverse transform returns a body
    velocity whose x and y are within 1e-3 m/s of the original, and whose
    theta is within 0.018 deg/s of it: the commands are rounded to whole
    raw ticks, and half a tick on each wheel is 9/512 = 0.017578125 deg/s
    of rotation. The bound leaves room for the rounding of binary64: it
    holds for the inverse of any three commands that are the wheel speeds
    rounded to whole ticks, whichever way a tie went. *)
Theorem kinematics_round_trip (x y theta : R) :
  max_raw_computed
    (wheel_degps x y theta default_wheel_radius default_base_radius)
    <= IZR default_max_raw ->
  reads_back (round_trip x y theta) x y theta /\
  forall c1 c2 c3 : Z,
    (let '(d1, d2, d3) :=
       wheel_degps x y theta default_wheel_radius default_base_radius in
     near_tick c1 d1 /\ near_tick c2 d2 /\ near_tick c3 d3) ->
    reads_back
      (_wheel_raw_to_body c1 c2 c3 default_wheel_radius default_base_radius)
      x y theta.
Proof.
  intros Hunder. split; [|apply inverse_of_near_ticks].
  rewrite round_trip_unfold by done.
  pose proof (inverse_of_near_ticks x y theta) as Hinv.
  destruct (wheel_degps x y theta default_wheel_radius default_base_radius)
    as [[d1 d2] d3].
  apply Hinv. repeat split; apply near_tick_py_round.
Qed.

Lemma kinematics_round_trip_witness :
  reads_back (round_trip 0 0 1) 0 0 1 /\
  forall c1 c2 c3 : Z,
    (let '(d1, d2, d3) :=
       wheel_degps 0 0 1 default_wheel_radius default_base_radius in
     near_tick c1 d1 /\ near_tick c2 d2 /\ near_tick c3 d3) ->
    reads_back
      (_wheel_raw_to_body c1 c2 c3 default_wheel_radius default_base_radius)
      0 0 1.
Proof.
  apply kinematics_round_trip.
  unfold default_wheel_radius, default_base_radius, default_max_raw.
  rewrite wheel_degps_rotation by lra.
  unfold max_raw_computed, raw_floats. cbn [vmap]. rewrite vmax_same.
  rewrite Rabs_pos_eq; lra.
Defined.

(** The rounding shows at theta = 1 deg/s: the three commands are 28 ticks
    per second, which read back as 63/64 deg/s, off by 1/64 > 1e-3, although
    the wheel speeds are far below the cap. *)
Lemma kinematics_round_trip_theta_off :
  max_raw_computed
    (wheel_degps 0 0 1 default_wheel_radius default_base_radius)
    <= IZR default_max_raw /\
  exists x' y',
    round_trip 0 0 1
      = Ok [ ("x.vel", x'); ("y.vel", y'); ("theta.vel", 63 / 64) ]%string /\
    ~ Rabs (63 / 64 - 1) <= 1 / 1000.
Proof.
  assert (Hunder : max_raw_computed
    (wheel_degps 0 0 1 default_wheel_radius default_base_radius)
    <= IZR default_max_raw).
  { unfold default_wheel_radius, default_base_radius, default_max_raw.
    rewrite wheel_degps_rotation by lra.
    unfold max_raw_computed, raw_floats. cbn [vmap]. rewrite vmax_same.
    rewrite Rabs_pos_eq; lra. }
  split; [done|].
  rewrite round_trip_unfold by done.
  unfold default_wheel_radius, default_base_radius.
  rewrite wheel_degps_rotation by lra.
  rewrite (py_round_near _ 28) by (apply Rabs_lt_iff; lra).
  rewrite _wheel_raw_to_body_value by lra. cbv zeta.
  do 2 eexists. split.
  - do 3 f_equal. f_equal. f_equal.
    unfold linear_of_raw, _raw_to_degps. pose proof PI_neq0. solve_field.
  - rewrite Rabs_le_iff. lra.
Qed.

End RoundTrip.

(** *** What [send_action] returns *)

Section Action.
Local Open Scope R_scope.





Definition strip_pos (k : string) : string := replace k ".pos" "".




End Action.

Section ActionExamples.
Local Open Scope R_scope.





(** Two position keys that name one motor: [a.pos] and [a.pos.pos] both
    lose their suffix to [a], the bus receives the later goal, and the
    returned map still holds both as requested. *)
Example send_action_shared_motor :
  exists rb' velocities,
    send_action (steady_bus 0)
      [ ("a.pos", 1); ("a.pos.pos", 2);
        ("x.vel", 0); ("y.vel", 0); ("theta.vel", 0) ]%string
      (robot_up plain_config)
    = (Ok [ ("a.pos", 1); ("a.pos.pos", 2);
            ("x.vel", 0); ("y.vel", 0); ("theta.vel", 0) ]%string, rb') /\
    trace rb' =
      [ SyncWrite "Goal_Position" [("a", Float 2)]%string None;
        SyncWrite "Goal_Velocity" velocities None ].
Proof.
  set (velocities :=
    map (prod_map Datatypes.id Int)
        (_body_to_wheel_raw 0 0 0 default_wheel_radius default_base_radius
                            default_max_raw)).
  exists
    (log (SyncWrite "Goal_Velocity" velocities None)
       (log (SyncWrite "Goal_Position" [("a", Float 2)]%string None)
            (robot_up plain_config))),
    velocities.
  split; reflexivity.
Qed.

End ActionExamples.

End LeKiwiFacts.

(** * Part III: further properties of the code *)

(** ** Register codec: range, overflow and the way back *)

Module CodecMore.
Import Codec CodecFacts.
Local Open Scope Z_scope.

Lemma lor_sign_mask (m b : Z) :
  0 <= b -> 0 <= m < 2 ^ b -> Z.lor m (2 ^ b) = m + 2 ^ b.
Proof.
  intros Hb Hm.
  rewrite <- Z.lxor_lor by (by apply land_small_sign).
  symmetry. apply Z.add_nocarry_lxor. by apply land_small_sign.
Qed.

(** The bits below the sign bit are those of the magnitude, whatever its
    size. *)
Lemma land_lor_ones (a b : Z) :
  0 <= b -> Z.land (Z.lor a (2 ^ b)) (2 ^ b - 1) = a mod 2 ^ b.
Proof.
  intros Hb.
  replace (2 ^ b - 1) with (Z.ones b) by (rewrite Z.ones_equiv; lia).
  rewrite <- Z.land_ones by done.
  apply Z.bits_inj'; intros i Hi.
  rewrite !Z.land_spec, Z.lor_spec, Z.pow2_bits_eqb by lia.
  destruct (Z.lt_ge_cases i b) as [Hlt|Hge].
  - rewrite Z.ones_spec_low by lia.
    destruct (Z.eqb_spec b i); [lia|]. by rewrite orb_false_r.
  - rewrite Z.ones_spec_high by lia. by rewrite !andb_false_r.
Qed.

Lemma land_lor_sign (a b : Z) :
  0 <= b -> Z.land (Z.lor a (2 ^ b)) (2 ^ b) = 2 ^ b.
Proof.
  intros Hb. apply Z.bits_inj'; intros i Hi.
  rewrite Z.land_spec, Z.lor_spec, Z.pow2_bits_eqb by lia.
  destruct (Z.eqb_spec b i); [by rewrite orb_true_r|by rewrite andb_false_r].
Qed.

Lemma land_sign_testbit (v b : Z) :
  0 <= b -> (Z.land v (2 ^ b) =? 0) = negb (Z.testbit v b).
Proof.
  intros Hb.
  destruct (Z.testbit v b) eqn:Hbit; cbn.
  - apply Z.eqb_neq. intros H0.
    assert (Hb' : Z.testbit (Z.land v (2 ^ b)) b = true).
    { by rewrite Z.land_spec, Hbit, Z.pow2_bits_true. }
    rewrite H0, Z.bits_0 in Hb'. done.
  - apply Z.eqb_eq. apply Z.bits_inj'; intros i Hi.
    rewrite Z.land_spec, Z.bits_0, Z.pow2_bits_eqb by lia.
    destruct (Z.eqb_spec b i) as [->|?]; [by rewrite Hbit|by rewrite andb_false_r].
Qed.

(** X1. What comes back from the register for any integer, in range or not: the
    magnitude is cut to the bits below the sign bit, and the sign is that of
    the value if it is negative, and bit [b] of the value otherwise. *)
Theorem decode_encode_any (v b : Z) :
  0 <= b ->
  (encode_sign_magnitude v b ≫= fun raw => decode_sign_magnitude raw b) =
  Ok (if (v <? 0) || Z.testbit v b
      then - (Z.abs v mod 2 ^ b)
      else Z.abs v mod 2 ^ b).
Proof.
  intros Hb. unfold encode_sign_magnitude, decode_sign_magnitude.
  rewrite py_lshift_one by done.
  assert (Hpow : 0 < 2 ^ b) by (apply Z.pow_pos_nonneg; lia).
  destruct (Z.ltb_spec v 0) as [Hneg|Hpos]; cbn.
  - rewrite land_lor_sign, land_lor_ones by done.
    destruct (Z.eqb_spec (2 ^ b) 0); [lia|done].
  - rewrite land_sign_testbit by done. rewrite negb_involutive.
    replace (2 ^ b - 1) with (Z.ones b) by (rewrite Z.ones_equiv; lia).
    rewrite Z.land_ones by done. by rewrite Z.abs_eq.
Qed.

Lemma decode_encode_any_witness :
  (encode_sign_magnitude 40000 15 ≫= fun raw => decode_sign_magnitude raw 15)
  = Ok (- 7232).
Proof. apply (decode_encode_any 40000 15). lia. Defined.

(** X2. Decoding never yields a magnitude that needs the sign bit. *)
Theorem decode_magnitude_bound (raw b : Z) :
  0 <= b ->
  exists v, decode_sign_magnitude raw b = Ok v /\ Z.abs v < 2 ^ b.
Proof.
  intros Hb. unfold decode_sign_magnitude. rewrite py_lshift_one by done.
  cbn. eexists. split; [reflexivity|].
  replace (2 ^ b - 1) with (Z.ones b) by (rewrite Z.ones_equiv; lia).
  rewrite Z.land_ones by done.
  assert (Hpow : 0 < 2 ^ b) by (apply Z.pow_pos_nonneg; lia).
  pose proof (Z.mod_pos_bound raw (2 ^ b) Hpow).
  destruct (negb _); lia.
Qed.

Lemma decode_magnitude_bound_witness :
  exists v, decode_sign_magnitude (-1) 15 = Ok v /\ Z.abs v < 2 ^ 15.
Proof. apply decode_magnitude_bound. lia. Defined.

(** X3. An in-range value is encoded in [b + 1] bits, with bit [b] set exactly
    for the negative ones. *)
Theorem encode_range (v b : Z) :
  0 <= b -> Z.abs v < 2 ^ b ->
  exists raw,
    encode_sign_magnitude v b = Ok raw /\
    0 <= raw < 2 ^ (b + 1) /\
    Z.testbit raw b = (v <? 0).
Proof.
  intros Hb Hv. unfold encode_sign_magnitude.
  replace (2 ^ (b + 1)) with (2 * 2 ^ b) by (rewrite Z.pow_add_r by lia; lia).
  destruct (Z.ltb_spec v 0) as [Hneg|Hpos]; cbn.
  - rewrite py_lshift_one by done. cbn. eexists. split; [reflexivity|].
    rewrite lor_sign_mask by lia. split; [lia|].
    rewrite <- lor_sign_mask by lia.
    by rewrite Z.lor_spec, Z.pow2_bits_true, orb_true_r.
  - eexists. split; [reflexivity|]. split; [lia|].
    apply (small_testbit v b b); lia.
Qed.

Lemma encode_range_witness :
  exists raw,
    encode_sign_magnitude (-100) 15 = Ok raw /\
    0 <= raw < 2 ^ (15 + 1) /\
    Z.testbit raw 15 = (-100 <? 0).
Proof. apply encode_range; [lia | reflexivity]. Defined.

(** X4. The way back: every register value of [b + 1] bits other than the
    negative zero [2^b] is the encoding of what it decodes to; the negative
    zero decodes to 0, whose encoding is 0. *)
Theorem encode_decode (raw b : Z) :
  0 <= b -> 0 <= raw < 2 ^ (b + 1) ->
  (decode_sign_magnitude raw b ≫= fun v => encode_sign_magnitude v b) =
  Ok (if raw =? 2 ^ b then 0 else raw).
Proof.
  intros Hb Hraw.
  replace (2 ^ (b + 1)) with (2 * 2 ^ b) in Hraw
    by (rewrite Z.pow_add_r by lia; lia).
  assert (Hpow : 0 < 2 ^ b) by (apply Z.pow_pos_nonneg; lia).
  unfold decode_sign_magnitude, encode_sign_magnitude.
  rewrite py_lshift_one by done. cbn.
  destruct (Z.lt_ge_cases raw (2 ^ b)) as [Hsmall|Hbig].
  - rewrite land_small_sign, land_small_magnitude by lia. cbn.
    destruct (Z.ltb_spec raw 0); [lia|].
    destruct (Z.eqb_spec raw (2 ^ b)); [lia|done].
  - pose (m := raw - 2 ^ b).
    assert (Hm : 0 <= m < 2 ^ b) by (unfold m; lia).
    assert (Heq : raw = Z.lor m (2 ^ b))
      by (rewrite lor_sign_mask by lia; unfold m; lia).
    clearbody m. subst raw.
    rewrite land_sign_mask, land_magnitude_mask by lia.
    destruct (Z.eqb_spec (2 ^ b) 0); [lia|]. cbn.
    rewrite (lor_sign_mask m) by lia.
    destruct (Z.ltb_spec (- m) 0) as [Hneg|Hzero].
    + destruct (Z.eqb_spec (m + 2 ^ b) (2 ^ b)); [lia|].
      rewrite Z.abs_opp, Z.abs_eq by lia.
      by rewrite lor_sign_mask by lia.
    + destruct (Z.eqb_spec (m + 2 ^ b) (2 ^ b)); [|lia].
      cbn. f_equal. lia.
Qed.

Lemma encode_decode_witness :
  (decode_sign_magnitude 32868 15 ≫= fun v => encode_sign_magnitude v 15)
  = Ok 32868.
Proof. apply (encode_decode 32868 15); [lia | split; [lia | reflexivity]]. Defined.

End CodecMore.

(** ** Kinematics: bounds, the inverse, and the way back *)

Module KinematicsMore.
Import Py PyFacts LeKiwi LeKiwiFacts.
Local Open Scope R_scope.

(** [z] is a command within [-c .. c]. *)
Definition within_cap (c z : Z) : Prop := (- c <= z <= c)%Z.

(** [z] fits a signed 16-bit register. *)
Definition int16 (z : Z) : Prop := (- 0x8000 <= z <= 0x7FFF)%Z.

Lemma _degps_to_raw_int16 (degps : R) : int16 (_degps_to_raw degps).
Proof.
  unfold _degps_to_raw, int16.
  destruct (Z.gtb_spec (py_round (degps * (4096.0 / 360.0))) 0x7FFF); [lia|].
  destruct (Z.ltb_spec (py_round (degps * (4096.0 / 360.0))) (- 0x8000)); lia.
Qed.

(** X5. A raw speed that fits 16 bits survives the conversion to degrees per
    second and back. *)
Theorem raw_degps_raw (raw_speed : Z) :
  int16 raw_speed -> _degps_to_raw (_raw_to_degps raw_speed) = raw_speed.
Proof.
  intros Hfit. unfold _degps_to_raw, _raw_to_degps.
  replace (IZR raw_speed / (4096.0 / 360.0) * (4096.0 / 360.0))
    with (IZR raw_speed) by solve_field.
  rewrite py_round_IZR. unfold int16 in Hfit.
  destruct (Z.gtb_spec raw_speed 0x7FFF); [lia|].
  destruct (Z.ltb_spec raw_speed (- 0x8000)); [lia|done].
Qed.

Lemma raw_degps_raw_witness : _degps_to_raw (_raw_to_degps (-32768)) = (-32768)%Z.
Proof. apply raw_degps_raw. unfold int16. lia. Defined.

(** X6. For velocities and a geometry that binary64 holds without
    overflow and a cap between 0 and 32767, the three wheel commands are
    returned under the wheel names, fit 16 bits and stay within the cap. *)
Theorem wheel_commands_bounded
    (x y theta wheel_radius base_radius : R) (max_raw : Z) :
  tame_velocity x y theta ->
  tame_geometry wheel_radius base_radius ->
  (0 <= max_raw <= 0x7FFF)%Z ->
  exists left_wheel back_wheel right_wheel,
    _body_to_wheel_raw x y theta wheel_radius base_radius max_raw =
      [ ("base_left_wheel", left_wheel); ("base_back_wheel", back_wheel);
        ("base_right_wheel", right_wheel) ]%string /\
    (int16 left_wheel /\ int16 back_wheel /\ int16 right_wheel) /\
    (within_cap max_raw left_wheel /\ within_cap max_raw back_wheel
     /\ within_cap max_raw right_wheel).
Proof.
  intros _ _ [Hcap0 Hcap]. unfold _body_to_wheel_raw.
  pose proof (raw_floats_le_max
    (scale_wheel_degps max_raw
       (wheel_degps x y theta wheel_radius base_radius))) as Hle.
  pose proof (scale_wheel_degps_within max_raw
    (wheel_degps x y theta wheel_radius base_radius) Hcap0) as Hmax.
  destruct (scale_wheel_degps _ _) as [[d1 d2] d3].
  do 3 eexists. split; [reflexivity|].
  split; [repeat split; apply _degps_to_raw_int16|].
  cbn [raw_floats vmap] in Hle. destruct Hle as (H1 & H2 & H3).
  unfold within_cap.
  repeat split; apply _degps_to_raw_unsaturated; (done || lra).
Qed.

Lemma wheel_commands_bounded_witness :
  exists left_wheel back_wheel right_wheel,
    _body_to_wheel_raw 1 1 1 0.05 0.125 3000 =
      [ ("base_left_wheel", left_wheel); ("base_back_wheel", back_wheel);
        ("base_right_wheel", right_wheel) ]%string /\
    (int16 left_wheel /\ int16 back_wheel /\ int16 right_wheel) /\
    (within_cap 3000 left_wheel /\ within_cap 3000 back_wheel
     /\ within_cap 3000 right_wheel).
Proof.
  apply wheel_commands_bounded;
    [unfold tame_velocity; lra | unfold tame_geometry; lra | lia].
Defined.

(** X7. Turning on the spot drives the three wheels with one and the same
    command, for every rotation and geometry that binary64 holds without
    overflow and every cap that is not negative. *)
Theorem rotation_commands_equal
    (theta wheel_radius base_radius : R) (max_raw : Z) :
  tame_velocity 0 0 theta ->
  tame_geometry wheel_radius base_radius ->
  (0 <= max_raw)%Z ->
  exists raw,
    _body_to_wheel_raw 0 0 theta wheel_radius base_radius max_raw =
      [ ("base_left_wheel", raw); ("base_back_wheel", raw);
        ("base_right_wheel", raw) ]%string.
Proof.
  intros _ [[Hr _] _] _. unfold _body_to_wheel_raw.
  rewrite wheel_degps_rotation by lra.
  unfold scale_wheel_degps. destruct (Rgt_dec _ _); cbn [vmap]; by eexists.
Qed.

Lemma rotation_commands_equal_witness :
  exists raw,
    _body_to_wheel_raw 0 0 90 0.05 0.125 3000 =
      [ ("base_left_wheel", raw); ("base_back_wheel", raw);
        ("base_right_wheel", raw) ]%string.
Proof.
  apply rotation_commands_equal;
    [unfold tame_velocity; lra | unfold tame_geometry; lra | lia].
Defined.

(** X9. The inverse transform fails exactly for a base of radius 0, where the
    mapping matrix is singular. *)
Theorem inverse_singular_iff
    (left back right : Z) (wheel_radius base_radius : R) :
  _wheel_raw_to_body left back right wheel_radius base_radius
    = Raise LinAlgError <-> base_radius = 0.
Proof.
  split.
  - intros Hraise. destruct (Req_dec base_radius 0) as [->|Hb]; [done|].
    rewrite _wheel_raw_to_body_value in Hraise by done. discriminate.
  - intros ->. unfold _wheel_raw_to_body, linalg_inv.
    rewrite det3_wheel_matrix.
    destruct (Req_dec_T _ 0) as [_|Hne]; [done|]. exfalso. apply Hne. lra.
Qed.

Lemma inverse_singular_iff_witness :
  _wheel_raw_to_body 100 0 (-100) default_wheel_radius 0 = Raise LinAlgError.
Proof. apply inverse_singular_iff. reflexivity. Defined.

(** Feeding the body velocity read from the wheels to the forward
    transform. *)
Definition wheels_of_body (body : dict R) : result (dict Z) :=
  x ← dict_getitem "x.vel" body;
  y ← dict_getitem "y.vel" body;
  theta ← dict_getitem "theta.vel" body;
  mret (_body_to_wheel_raw x y theta default_wheel_radius default_base_radius
                             default_max_raw).

Lemma forward_of_inverse_linear (w1 w2 w3 b : R) :
  b <> 0 ->
  let s := sqrt 3 in
  let x := - (s / 3) * w1 + 0 * w2 + s / 3 * w3 in
  let y := 1 / 3 * w1 + - (2 / 3) * w2 + 1 / 3 * w3 in
  let t := 1 / (3 * b) * w1 + 1 / (3 * b) * w2 + 1 / (3 * b) * w3 in
  - (s / 2) * x + 1 / 2 * y + b * t = w1 /\
  0 * x + -1 * y + b * t = w2 /\
  s / 2 * x + 1 / 2 * y + b * t = w3.
Proof.
  intros Hb s x y t.
  assert (Ht : b * t = (w1 + w2 + w3) / 3) by (unfold t; by field).
  rewrite Ht. subst x y.
  assert (H1 : s * s * w1 = 3 * w1) by (unfold s; rewrite sqrt3_sqr; ring).
  assert (H3 : s * s * w3 = 3 * w3) by (unfold s; rewrite sqrt3_sqr; ring).
  repeat split; nra.
Qed.

(** The wheel speeds of a body velocity that was itself read from raw wheel
    speeds are those raw speeds. *)
Lemma wheel_degps_of_inverse (left back right : Z)
    (wheel_radius base_radius : R) :
  wheel_radius <> 0 -> base_radius <> 0 ->
  let w1 := linear_of_raw left wheel_radius in
  let w2 := linear_of_raw back wheel_radius in
  let w3 := linear_of_raw right wheel_radius in
  wheel_degps
    (- (sqrt 3 / 3) * w1 + 0 * w2 + sqrt 3 / 3 * w3)
    (1 / 3 * w1 + - (2 / 3) * w2 + 1 / 3 * w3)
    ((1 / (3 * base_radius) * w1 + 1 / (3 * base_radius) * w2
      + 1 / (3 * base_radius) * w3) * (180.0 / PI))
    wheel_radius base_radius
  = (_raw_to_degps left, _raw_to_degps back, _raw_to_degps right).
Proof.
  intros Hr Hb w1 w2 w3. pose proof PI_neq0 as Hpi.
  unfold wheel_degps, wheel_linear_speeds. rewrite wheel_matrix_value.
  cbn [mat_vec dot vmap].
  set (t := 1 / (3 * base_radius) * w1 + 1 / (3 * base_radius) * w2
            + 1 / (3 * base_radius) * w3).
  replace (t * (180.0 / PI) * (PI / 180.0)) with t by solve_field.
  destruct (forward_of_inverse_linear w1 w2 w3 base_radius Hb)
    as (E1 & E2 & E3).
  fold t in E1, E2, E3. rewrite E1, E2, E3.
  unfold w1, w2, w3, linear_of_raw.
  f_equal; [f_equal|]; solve_field.
Qed.

Lemma wheels_of_body_value (x y theta : R) :
  wheels_of_body [("x.vel", x); ("y.vel", y); ("theta.vel", theta)]%string =
  Ok (_body_to_wheel_raw x y theta default_wheel_radius default_base_radius
                         default_max_raw).
Proof. reflexivity. Qed.

(** X10. The other round trip is exact: raw wheel speeds within the cap, turned
    into a body velocity and back into wheel commands, come back as they
    were. *)
Theorem forward_of_inverse (left back right : Z) :
  within_cap default_max_raw left ->
  within_cap default_max_raw back ->
  within_cap default_max_raw right ->
  (_wheel_raw_to_body left back right default_wheel_radius default_base_radius
     ≫= wheels_of_body) =
  Ok [ ("base_left_wheel", left); ("base_back_wheel", back);
       ("base_right_wheel", right) ]%string.
Proof.
  unfold within_cap, default_max_raw, default_wheel_radius, default_base_radius.
  intros [Hl1 Hl2] [Hb1 Hb2] [Hr1 Hr2].
  apply IZR_le in Hl1, Hl2, Hb1, Hb2, Hr1, Hr2. rewrite opp_IZR in Hl1, Hb1, Hr1.
  rewrite _wheel_raw_to_body_value by lra. cbv zeta.
  change (Ok ?d ≫= wheels_of_body) with (wheels_of_body d).
  rewrite wheels_of_body_value.
  unfold default_max_raw, default_wheel_radius, default_base_radius.
  rewrite _body_to_wheel_raw_unsaturated by lia.
  rewrite wheel_degps_of_inverse by lra.
  assert (Hk : forall z : Z,
    _raw_to_degps z * (4096.0 / 360.0) = IZR z).
  { intros z. unfold _raw_to_degps. solve_field. }
  assert (Habs : forall z : Z,
    Rabs (_raw_to_degps z) * (4096.0 / 360.0) = Rabs (IZR z)).
  { intros z. rewrite <- (Hk z), Rabs_mult.
    by rewrite (Rabs_pos_eq (4096.0 / 360.0)) by lra. }
  unfold scale_wheel_degps, max_raw_computed, raw_floats, vmax. cbn [vmap].
  rewrite !Habs.
  destruct (Rgt_dec _ _) as [Hover|_].
  { exfalso. revert Hover. apply Rle_not_gt.
    repeat apply Rmax_lub; apply Rabs_le_iff; lra. }
  unfold rounded_commands. rewrite !Hk, !py_round_IZR. done.
Qed.

Lemma forward_of_inverse_witness :
  (_wheel_raw_to_body 1130 0 (-1130) default_wheel_radius default_base_radius
     ≫= wheels_of_body) =
  Ok [ ("base_left_wheel", 1130%Z); ("base_back_wheel", 0%Z);
       ("base_right_wheel", (-1130)%Z) ]%string.
Proof. apply forward_of_inverse; unfold within_cap, default_max_raw; lia. Defined.

End KinematicsMore.

(** ** The action pipeline: errors, order of the bus calls, stability *)

Module ActionMore.
Import Py PyFacts LeKiwi LeKiwiFacts.
Local Open Scope R_scope.

(** A clamped goal is within the limit, so clamping it again changes
    nothing. *)
Lemma clamp_goal_idempotent (g_pos p_pos : R) (lim : limit) :
  nonneg lim ->
  clamp_goal (clamp_goal g_pos p_pos lim) p_pos lim = clamp_goal g_pos p_pos lim.
Proof.
  intros Hlim.
  destruct (clamp_goal_safe g_pos p_pos lim Hlim) as (Hwithin & _ & _).
  destruct (clamp_goal_safe (clamp_goal g_pos p_pos lim) p_pos lim Hlim)
    as (_ & _ & Hsame).
  by apply Hsame.
Qed.

(** X11. Sending again what the clamp let through is stable: under limits that
    are not negative and the same present positions, the clamped goals pass
    the clamp unchanged. *)
Theorem clamp_goals_stable (present_pos : dict R) (max_rel : RelativeTarget)
    (arm_goal_pos clamped : dict R) :
  limits_nonneg max_rel ->
  clamp_goals present_pos max_rel arm_goal_pos = Ok clamped ->
  clamp_goals present_pos max_rel clamped = Ok clamped.
Proof.
  intros Hlim. revert clamped.
  induction arm_goal_pos as [|[key g_pos] rest IH]; intros clamped; cbn.
  - by intros [= <-].
  - destruct (dict_getitem _ present_pos) as [p_pos|] eqn:Ep; cbn; [|done].
    destruct (clamp_goals present_pos max_rel rest) as [rest'|] eqn:Er;
      cbn; [|done].
    intros [= <-]. cbn. rewrite Ep. cbn. rewrite (IH rest') by done. cbn.
    rewrite clamp_goal_idempotent; [done|]. by apply limit_for_nonneg.
Qed.

Lemma clamp_goals_stable_witness :
  clamp_goals [("arm_gripper", 0)]%string (Scalar 5)
    [("arm_gripper.pos", clamp_goal 10 0 (Finite 5))]%string
  = Ok [("arm_gripper.pos", clamp_goal 10 0 (Finite 5))]%string.
Proof.
  apply (clamp_goals_stable _ _ [("arm_gripper.pos", 10)]%string);
    [cbn; lra | reflexivity].
Defined.


(** A camera that is not connected makes the robot not connected. *)
Lemma camera_down (rb : Robot) (name : string) (cam : Camera) :
  In (name, cam) (cameras rb) ->
  cam_is_connected cam = false ->
  is_connected rb = false.
Proof.
  intros Hin Hcam. apply not_true_is_false. unfold is_connected.
  rewrite andb_true_iff, forallb_values_spec. intros [_ Hall].
  rewrite (Hall name cam Hin) in Hcam. discriminate Hcam.
Qed.

Section Bus.
Variable bus : Bus.

(** X12. One camera that is down is enough for [send_action] to refuse: it
    raises [DeviceNotConnectedError] at once, whatever the action and the
    state of the bus, and nothing is read from or written to the bus. *)
Theorem send_action_needs_cameras
    (rb : Robot) (action : dict R) (name : string) (cam : Camera) :
  In (name, cam) (cameras rb) ->
  cam_is_connected cam = false ->
  send_action bus action rb = (Raise DeviceNotConnectedError, rb).
Proof.
  intros Hin Hcam. unfold send_action. run.
  by rewrite (camera_down rb name cam).
Qed.

(** X13. Only the entries whose key ends in ".pos" or ".vel" count: the others
    can be dropped from the action without changing what happens. *)
Theorem send_action_foreign_keys (rb : Robot) (action : dict R) :
  send_action bus action rb =
  send_action bus
    (List.filter (fun kv => is_pos kv.1 || is_vel kv.1) action) rb.
Proof.
  assert (Hfilter : forall p : string -> bool,
    (forall k, p k = true -> is_pos k || is_vel k = true) ->
    dict_filter_keys p
      (List.filter (fun kv => is_pos kv.1 || is_vel kv.1) action)
    = dict_filter_keys p action).
  { intros p Hp. unfold dict_filter_keys. f_equal.
    induction action as [|[k v] rest IH]; [done|]. cbn.
    destruct (p k) eqn:Ek.
    - rewrite (Hp k Ek). cbn. by rewrite Ek, IH.
    - destruct (is_pos k || is_vel k); cbn; by rewrite ?Ek, IH. }
  unfold send_action. run. fold is_pos. fold is_vel.
  rewrite !Hfilter; [done|..]; intros k ->; by rewrite ?orb_true_r.
Qed.

(** The hypotheses shared by the theorems on failing bus calls: a connected
    robot and an action, with distinct keys, that holds the three
    velocities. *)
Definition sendable (rb : Robot) (action : dict R) (x y theta : R) : Prop :=
  NoDup (keys action) /\
  is_connected rb = true /\
  dict_get "x.vel" action = Some x /\
  dict_get "y.vel" action = Some y /\
  dict_get "theta.vel" action = Some theta.

Definition positions_of (goals : dict R) : dict num :=
  map (prod_map Datatypes.id Float) (dict_rekey strip_pos goals).

Definition velocities_of (x y theta : R) : dict num :=
  map (prod_map Datatypes.id Int)
      (_body_to_wheel_raw x y theta default_wheel_radius default_base_radius
                          default_max_raw).

(** [send_action] up to the clamp, for an action that can be sent. *)
Lemma send_action_unfold (rb : Robot) (action : dict R) (x y theta : R) :
  sendable rb action x y theta ->
  send_action bus action rb =
  (arm_goal_pos ←
     match max_relative_target (config rb) with
     | None => mret (List.filter (fun kv => is_pos kv.1) action)
     | Some max_rel =>
         let arm := arm_motors (config rb) in
         present_pos ← call (SyncRead "Present_Position" arm)
                            (fun tr => sync_read bus tr "Present_Position" arm);
         lift (clamp_goals present_pos max_rel
                 (List.filter (fun kv => is_pos kv.1) action))
     end;
   call (SyncWrite "Goal_Position" (positions_of arm_goal_pos) None)
        (fun tr => sync_write bus tr "Goal_Position" (positions_of arm_goal_pos) None);;
   call (SyncWrite "Goal_Velocity" (velocities_of x y theta) None)
        (fun tr => sync_write bus tr "Goal_Velocity" (velocities_of x y theta) None);;
   mret (dict_merge arm_goal_pos (List.filter (fun kv => is_vel kv.1) action)))
  rb.
Proof.
  intros (Hnd & Hconn & Hx & Hy & Ht).
  unfold send_action. run. rewrite Hconn. cbn [negb].
  fold is_vel. fold is_pos. fold strip_pos.
  rewrite !dict_filter_keys_filter by done.
  unfold dict_getitem. rewrite !dict_get_filter.
  change (is_vel "x.vel") with true. change (is_vel "y.vel") with true.
  change (is_vel "theta.vel") with true. cbn iota.
  rewrite Hx, Hy, Ht. reflexivity.
Qed.




End Bus.

(** Buses that refuse writes: every write, or the velocity writes only. *)
Definition deaf_bus : Bus :=
  {| sync_read := sync_read (steady_bus 0);
     sync_write := fun _ _ _ _ => Raise BusCommunicationFailure;
     write := write (steady_bus 0);
     disable_torque := disable_torque (steady_bus 0);
     enable_torque := enable_torque (steady_bus 0);
     set_half_turn_homings := set_half_turn_homings (steady_bus 0);
     record_ranges_of_motion := record_ranges_of_motion (steady_bus 0);
     write_calibration := write_calibration (steady_bus 0) |}.


Definition gripper_action : dict R :=
  [("arm_gripper.pos", 10); ("x.vel", 0); ("y.vel", 0); ("theta.vel", 0)]%string.


Lemma send_action_needs_cameras_witness :
  send_action (steady_bus 0) gripper_action
    (mkRobot plain_config true true (two_cameras false true) [])
  = (Raise DeviceNotConnectedError,
     mkRobot plain_config true true (two_cameras false true) []).
Proof.
  apply (send_action_needs_cameras (steady_bus 0) _ _ "front" (mkCamera false));
    [cbn; tauto | reflexivity].
Defined.





End ActionMore.

(** ** Calibration: what is written when something fails *)

Module CalibrationMore.
Import Py PyFacts LeKiwi LeKiwiFacts.
Local Open Scope Z_scope.

(** X17. [_save_calibration]: a dump that fails is swallowed, a directory that
    cannot be made is not, and then no dump is attempted. *)
Theorem save_calibration_outcome (fs : FileSystem)
    (calibration : gmap string MotorCalibration) (rb : Robot) :
  (mkdir fs (trace rb) "config" = Ok () ->
   _save_calibration fs calibration rb =
   (Ok (),
    log (JsonDump "config/calibration.json" calibration)
        (log (Mkdir "config") rb)))
  /\
  (forall e, mkdir fs (trace rb) "config" = Raise e ->
   _save_calibration fs calibration rb = (Raise e, log (Mkdir "config") rb)).
Proof.
  unfold _save_calibration, try_except. run. rewrite save_data_id.
  split.
  - intros ->. by destruct (json_dump fs _ _ _).
  - by intros e ->.
Qed.

(** A file system on which nothing can be written. *)
Definition readonly_fs : FileSystem :=
  {| mkdir := fun _ _ => Ok (); json_dump := fun _ _ _ => Raise OSError |}.

(** A file system without room for the directory. *)
Definition full_fs : FileSystem :=
  {| mkdir := fun _ _ => Raise OSError; json_dump := fun _ _ _ => Ok () |}.

Lemma save_calibration_outcome_witness :
  _save_calibration readonly_fs ∅ (robot_up plain_config) =
  (Ok (),
   log (JsonDump "config/calibration.json" ∅)
       (log (Mkdir "config") (robot_up plain_config)))
  /\
  _save_calibration full_fs ∅ (robot_up plain_config) =
  (Raise OSError, log (Mkdir "config") (robot_up plain_config)).
Proof.
  split.
  - apply (proj1 (save_calibration_outcome readonly_fs ∅ (robot_up plain_config))).
    reflexivity.
  - apply (proj2 (save_calibration_outcome full_fs ∅ (robot_up plain_config))).
    reflexivity.
Defined.

(** The dicts of [calibrate] once the fixed values are filled in. *)
Definition filled_offsets (offsets : gmap string Z) : gmap string Z :=
  set_all base_names 0 offsets.
Definition filled_mins (mins : gmap string Z) : gmap string Z :=
  set_all full_turn_names 0 mins.
Definition filled_maxes (maxes : gmap string Z) : gmap string Z :=
  set_all full_turn_names 4095 maxes.

(** The robot when the two answers of the bus are in. *)
Definition recorded_trace (rb : Robot) (POSITION : Z) : list Event :=
  homing_trace rb POSITION ++
  [SetHalfTurnHomings arm_names; RecordRangesOfMotion bounded_names].

(** [calibrate] up to the point where the records are built, on a bus that
    lets the preparation through. *)
Lemma calibrate_steps (bus : Bus) (fs : FileSystem) (POSITION : Z)
    (rb : Robot) (offsets mins maxes : gmap string Z) :
  (forall tr names, disable_torque bus tr names = Ok ()) ->
  (forall tr data_name motor value, write bus tr data_name motor value = Ok ()) ->
  set_half_turn_homings bus (homing_trace rb POSITION) arm_names = Ok offsets ->
  record_ranges_of_motion bus
    (homing_trace rb POSITION ++ [SetHalfTurnHomings arm_names])
    bounded_names = Ok (mins, maxes) ->
  exists rb2,
    trace rb2 = recorded_trace rb POSITION /\
    config rb2 = config rb /\
    calibrate bus fs POSITION rb =
    (calibration ← lift (build_calibration
                           (filled_offsets offsets) (filled_mins mins)
                           (filled_maxes maxes) (motors (config rb)) ∅);
     call (WriteCalibration calibration)
          (fun tr => write_calibration bus tr calibration);;
     _save_calibration fs calibration) rb2.
Proof.
  intros Hdis Hwrite Hoff Hran.
  unfold homing_trace, homing_prompt in Hoff, Hran.
  cbn [arm_names map app] in Hoff, Hran.
  rewrite <- app_assoc in Hran. cbn [app] in Hran.
  unfold calibrate. run.
  change (arm_motors (config rb)) with arm_names.
  change (base_motors (config rb)) with base_names.
  change (List.filter is_full_turn _) with full_turn_names.
  change (List.filter (fun motor => negb (elem motor _)) _) with bounded_names.
  rewrite Hdis. cbn [arm_names set_position_mode]. run.
  rewrite !Hwrite. rewrite !trace_log.
  repeat rewrite <- app_assoc. cbn [app].
  rewrite Hoff, Hran. cbn [fst snd].
  match goal with
  | |- context [_save_calibration fs _ (log _ ?r)] => exists r
  end.
  split; [|split; [reflexivity|]].
  - unfold recorded_trace, homing_trace, homing_prompt.
    cbn [arm_names map app].
    rewrite !trace_log. repeat rewrite <- app_assoc. reflexivity.
  - run. rewrite !trace_log. repeat rewrite <- app_assoc. reflexivity.
Qed.

(** One lookup that fails makes the whole loop fail. *)
Lemma build_calibration_fails (h lo hi : gmap string Z) (items : dict Motor)
    (name : string) (motor : Motor) :
  forall acc : gmap string MotorCalibration,
  In (name, motor) items ->
  record_for h lo hi name motor = None ->
  exists key,
    In key (keys items) /\
    build_calibration h lo hi items acc = Raise (KeyError key).
Proof.
  induction items as [|[n m] items IH]; intros acc Hin Hnone; [done|].
  cbn. unfold getitem.
  destruct (h !! n) as [hv|] eqn:Eh; cbn; [|exists n; split; [by left|done]].
  destruct (lo !! n) as [lov|] eqn:El; cbn; [|exists n; split; [by left|done]].
  destruct (hi !! n) as [hiv|] eqn:Ei; cbn; [|exists n; split; [by left|done]].
  destruct Hin as [[= -> ->]|Hin].
  - unfold record_for in Hnone. by rewrite Eh, El, Ei in Hnone.
  - destruct (IH (<[n := mkMotorCalibration (motor_id m) 0 hv lov hiv]> acc)
                 Hin Hnone) as (key & Hkey & ->).
    exists key. split; [by right|done].
Qed.

(** An answer of the bus that misses a motor it was asked about: an arm
    motor without homing offset, or a bounded joint without recorded
    minimum or maximum. *)
Definition answer_misses (offsets mins maxes : gmap string Z)
    (name : string) : Prop :=
  (In name arm_names /\ offsets !! name = None) \/
  (In name bounded_names /\ (mins !! name = None \/ maxes !! name = None)).

(** X18. No half calibration: when an answer of the bus misses a motor,
    [calibrate] raises [KeyError] and has written nothing, neither to the
    bus nor to the file. *)
Theorem calibrate_missing_answer (bus : Bus) (fs : FileSystem)
    (POSITION : Z) (rb : Robot) (offsets mins maxes : gmap string Z)
    (name : string) :
  (forall tr names, disable_torque bus tr names = Ok ()) ->
  (forall tr data_name motor value, write bus tr data_name motor value = Ok ()) ->
  set_half_turn_homings bus (homing_trace rb POSITION) arm_names = Ok offsets ->
  record_ranges_of_motion bus
    (homing_trace rb POSITION ++ [SetHalfTurnHomings arm_names])
    bounded_names = Ok (mins, maxes) ->
  answer_misses offsets mins maxes name ->
  exists key rb',
    calibrate bus fs POSITION rb = (Raise (KeyError key), rb') /\
    trace rb' = recorded_trace rb POSITION.
Proof.
  intros Hdis Hwrite Hoff Hran Hmiss.
  destruct (calibrate_steps bus fs POSITION rb offsets mins maxes
              Hdis Hwrite Hoff Hran) as (rb2 & Htrace & _ & ->).
  assert (Hin : exists motor, In (name, motor) (motors (config rb))).
  { destruct Hmiss as [[Hin _]|[Hin _]]; cbn in Hin;
      repeat (destruct Hin as [<-|Hin]; [eexists; cbn; tauto|]); done. }
  destruct Hin as [motor Hin].
  assert (Hnone : record_for (filled_offsets offsets) (filled_mins mins)
                             (filled_maxes maxes) name motor = None).
  { unfold record_for, filled_offsets, filled_mins, filled_maxes.
    rewrite !set_all_lookup.
    destruct Hmiss as [[Hname Hnone]|[Hname Hnone]]; cbn in Hname.
    - repeat (destruct Hname as [<-|Hname];
        [change (elem _ base_names) with false; cbn iota; by rewrite Hnone|]).
      done.
    - repeat (destruct Hname as [<-|Hname];
        [change (elem _ full_turn_names) with false; cbn iota;
         destruct Hnone as [-> | ->];
         repeat match goal with
           | |- context [if ?c then _ else _] => destruct c
           | |- context [?m !! ?k ≫= _] => destruct (m !! k)
           end; done|]).
      done. }
  destruct (build_calibration_fails _ _ _ _ _ _ ∅ Hin Hnone) as (key & _ & E).
  exists key, rb2. run. by rewrite E.
Qed.

(** A bus that answers the homing step with an empty dict. *)
Definition forgetful_bus : Bus :=
  {| sync_read := sync_read (steady_bus 0);
     sync_write := sync_write (steady_bus 0);
     write := write (steady_bus 0);
     disable_torque := disable_torque (steady_bus 0);
     enable_torque := enable_torque (steady_bus 0);
     set_half_turn_homings := fun _ _ => Ok ∅;
     record_ranges_of_motion := record_ranges_of_motion (steady_bus 0);
     write_calibration := write_calibration (steady_bus 0) |}.

Lemma calibrate_missing_answer_witness :
  exists key rb',
    calibrate forgetful_bus steady_fs 0 (robot_up plain_config)
      = (Raise (KeyError key), rb') /\
    trace rb' = recorded_trace (robot_up plain_config) 0.
Proof.
  apply (calibrate_missing_answer forgetful_bus steady_fs 0
           (robot_up plain_config) ∅
           (list_to_map (map (fun n => (n, 1000)) bounded_names))
           (list_to_map (map (fun n => (n, 3000)) bounded_names))
           "arm_gripper");
    try reflexivity.
  left. split; [cbn; tauto | reflexivity].
Defined.

(** X19. Failures after the records are built. When the bus refuses the
    calibration, [calibrate] raises and the file is not touched. When the
    bus takes it and the directory of the file cannot be made, [calibrate]
    raises although the motors hold the new calibration, and no dump is
    attempted. *)
Theorem calibrate_late_failure (bus : Bus) (fs : FileSystem)
    (POSITION : Z) (rb : Robot) (offsets mins maxes : gmap string Z)
    (calibration : gmap string MotorCalibration) :
  (forall tr names, disable_torque bus tr names = Ok ()) ->
  (forall tr data_name motor value, write bus tr data_name motor value = Ok ()) ->
  set_half_turn_homings bus (homing_trace rb POSITION) arm_names = Ok offsets ->
  record_ranges_of_motion bus
    (homing_trace rb POSITION ++ [SetHalfTurnHomings arm_names])
    bounded_names = Ok (mins, maxes) ->
  build_calibration (filled_offsets offsets) (filled_mins mins)
    (filled_maxes maxes) (motors (config rb)) ∅ = Ok calibration ->
  (forall e,
     write_calibration bus (recorded_trace rb POSITION) calibration = Raise e ->
     exists rb',
       calibrate bus fs POSITION rb = (Raise e, rb') /\
       trace rb' = recorded_trace rb POSITION ++ [WriteCalibration calibration])
  /\
  (forall e,
     write_calibration bus (recorded_trace rb POSITION) calibration = Ok () ->
     mkdir fs (recorded_trace rb POSITION ++ [WriteCalibration calibration])
       "config" = Raise e ->
     exists rb',
       calibrate bus fs POSITION rb = (Raise e, rb') /\
       trace rb' =
         recorded_trace rb POSITION ++
         [WriteCalibration calibration; Mkdir "config"]).
Proof.
  intros Hdis Hwrite Hoff Hran Hcal.
  destruct (calibrate_steps bus fs POSITION rb offsets mins maxes
              Hdis Hwrite Hoff Hran) as (rb2 & Htrace & _ & ->).
  run. rewrite Hcal, Htrace. split.
  - intros e ->. eexists. split; [reflexivity|].
    by rewrite trace_log, Htrace.
  - intros e -> Hmkdir.
    unfold _save_calibration, try_except. run.
    rewrite trace_log, Htrace, Hmkdir.
    eexists. split; [reflexivity|].
    by rewrite !trace_log, Htrace, snoc_app.
Qed.

Lemma calibrate_late_failure_witness :
  exists calibration rb',
    calibrate (steady_bus 0) full_fs 0 (robot_up plain_config)
      = (Raise OSError, rb') /\
    trace rb' =
      recorded_trace (robot_up plain_config) 0 ++
      [WriteCalibration calibration; Mkdir "config"].
Proof.
  eexists.
  eapply (proj2 (calibrate_late_failure (steady_bus 0) full_fs 0
                   (robot_up plain_config)
                   (list_to_map (map (fun n => (n, 100)) arm_names))
                   (list_to_map (map (fun n => (n, 1000)) bounded_names))
                   (list_to_map (map (fun n => (n, 3000)) bounded_names)) _
                   (fun _ _ => eq_refl) (fun _ _ _ _ => eq_refl)
                   eq_refl eq_refl eq_refl));
    reflexivity.
Defined.

End CalibrationMore.

(** ** The REST routes ([api/routes/motors.py], [api/routes/robot.py]) *)

Module Api.
Import Py LeKiwi.
Local Open Scope R_scope.

(** [HTTPException(status_code=, detail=)] *)
Record HTTPException : Type := mkHTTPException {
  status_code : Z;
  detail : string
}.

(** A route returns its response model or raises an [HTTPException]. *)
Inductive reply (A : Type) : Type :=
| Return (a : A)
| Abort (e : HTTPException).
Arguments Return {A} a.
Arguments Abort {A} e.

Definition Route (A : Type) : Type := Robot -> reply A * Robot.

(** A value of [dict[str, Any]], as the routes fill it. *)
Inductive any : Type :=
| Number (r : R)
| Text (s : string)
| Flag (b : bool).

(** [ActionResponse(success=, action_sent=)] *)
Record ActionResponse : Type := mkActionResponse {
  success : bool;
  action_sent : dict any
}.

(** [CalibrationResponse(success=, message=)] *)
Record CalibrationResponse : Type := mkCalibrationResponse {
  calibration_success : bool;
  message : string
}.

(** [ArmPositionRequest] *)
Record ArmPositionRequest : Type := mkArmPositionRequest {
  arm_shoulder_pan : R;
  arm_shoulder_lift : R;
  arm_elbow_flex : R;
  arm_wrist_flex : R;
  arm_wrist_roll : R;
  arm_gripper : R
}.

Section Routes.

Variable bus : Bus.
Variable fs : FileSystem.
Variable POSITION : Z.

(** [str(e)], the text of an exception. *)
Variable str : exn -> string.

(** [set_arm_position(request, robot)] *)
Definition set_arm_position (request : ArmPositionRequest)
    : Route ActionResponse := fun robot =>
  if negb (is_connected robot)
  then (Abort (mkHTTPException 503 "Robot not connected"), robot)
  else
    let action :=
      [ ("arm_shoulder_pan.pos", arm_shoulder_pan request);
        ("arm_shoulder_lift.pos", arm_shoulder_lift request);
        ("arm_elbow_flex.pos", arm_elbow_flex request);
        ("arm_wrist_flex.pos", arm_wrist_flex request);
        ("arm_wrist_roll.pos", arm_wrist_roll request);
        ("arm_gripper.pos", arm_gripper request);
        ("x.vel", 0.0);
        ("y.vel", 0.0);
        ("theta.vel", 0.0) ]%string in
    match send_action bus action robot with
    | (Ok sent, robot') =>
        (Return (mkActionResponse true (map (prod_map Datatypes.id Number) sent)),
         robot')
    | (Raise e, robot') =>
        (Abort (mkHTTPException 500 ("Failed to set arm position: " ++ str e)),
         robot')
    end.

(** [stop_motors(robot)] *)
Definition stop_motors : Route ActionResponse := fun robot =>
  if negb (is_connected robot)
  then (Abort (mkHTTPException 503 "Robot not connected"), robot)
  else
    match stop_base bus robot with
    | (Ok _, robot') =>
        (Return (mkActionResponse true [("base", Text "stopped")]%string),
         robot')
    | (Raise e, robot') =>
        (Abort (mkHTTPException 500 ("Failed to stop motors: " ++ str e)),
         robot')
    end.

(** [calibrate_robot(robot)] *)
Definition calibrate_robot : Route CalibrationResponse := fun robot =>
  if negb (is_connected robot)
  then (Abort (mkHTTPException 400 "Robot not connected. Connect first."),
        robot)
  else
    match calibrate bus fs POSITION robot with
    | (Ok _, robot') =>
        (Return (mkCalibrationResponse true "Calibration completed"), robot')
    | (Raise e, robot') =>
        (Return (mkCalibrationResponse false ("Calibration failed: " ++ str e)),
         robot')
    end.

End Routes.

End Api.

Module ApiFacts.
Import Py PyFacts LeKiwi LeKiwiFacts ActionMore Api.
Local Open Scope R_scope.

(** A body at rest gives three wheel commands 0. *)
Lemma velocities_of_rest : velocities_of 0 0 0 = base_zeros.
Proof.
  unfold velocities_of, _body_to_wheel_raw.
  assert (E : wheel_degps 0 0 0 default_wheel_radius default_base_radius
              = (0, 0, 0)).
  { unfold wheel_degps, wheel_linear_speeds, wheel_matrix, angles.
    cbn [vmap mat_vec dot]. repeat f_equal; unfold Rdiv; ring. }
  rewrite E. unfold scale_wheel_degps, max_raw_computed, raw_floats.
  cbn [vmap]. rewrite Rabs_R0, Rmult_0_l, vmax_same.
  destruct (Rgt_dec 0 (IZR default_max_raw)) as [Hgt|_].
  { unfold default_max_raw in Hgt. lra. }
  assert (E0 : _degps_to_raw 0 = 0%Z).
  { unfold _degps_to_raw. rewrite Rmult_0_l, (py_round_IZR 0). reflexivity. }
  rewrite E0. reflexivity.
Qed.

Definition arm_action (request : ArmPositionRequest) : dict R :=
  [ ("arm_shoulder_pan.pos", arm_shoulder_pan request);
    ("arm_shoulder_lift.pos", arm_shoulder_lift request);
    ("arm_elbow_flex.pos", arm_elbow_flex request);
    ("arm_wrist_flex.pos", arm_wrist_flex request);
    ("arm_wrist_roll.pos", arm_wrist_roll request);
    ("arm_gripper.pos", arm_gripper request);
    ("x.vel", 0.0);
    ("y.vel", 0.0);
    ("theta.vel", 0.0) ]%string.

Lemma sendable_arm_action (rb : Robot) (request : ArmPositionRequest) :
  is_connected rb = true ->
  sendable rb (arm_action request) 0.0 0.0 0.0.
Proof.
  intros Hconn. repeat split; try done.
  repeat (apply NoDup_cons_2;
          [rewrite list_elem_of_In; cbn; intuition discriminate|]).
  apply NoDup_nil_2.
Qed.

Lemma zero_literal : 0.0 = 0.
Proof. decimals. lra. Qed.

Section Routes.

Variable bus : Bus.
Variable fs : FileSystem.
Variable POSITION : Z.
Variable str : exn -> string.

(** Settling what one velocity write among the calls of a route holds. *)
Ltac settle_calls :=
  cbn [fst snd]; eexists; split;
  [ rewrite ?trace_log, <- ?app_assoc; reflexivity
  | split;
    [ intros values num_retry Hin; cbn [app In] in Hin;
      repeat (destruct Hin as [Heq|Hin];
              [first [discriminate Heq
                     | by injection Heq]|]);
      destruct Hin
    | intros resp Hresp; first [discriminate Hresp | cbn [app In]; tauto] ] ].

(** X20. [set_arm_position] holds the base: whatever the request, every velocity
    write it makes on the bus commands the three wheels to 0, and it
    answers with success only after such a write. *)
Theorem set_arm_position_holds_base
    (request : ArmPositionRequest) (rb : Robot) :
  is_connected rb = true ->
  exists calls,
    trace (set_arm_position bus str request rb).2 = trace rb ++ calls /\
    (forall values num_retry,
       In (SyncWrite "Goal_Velocity" values num_retry) calls ->
       values = base_zeros) /\
    (forall resp,
       (set_arm_position bus str request rb).1 = Return resp ->
       In (SyncWrite "Goal_Velocity" base_zeros None) calls).
Proof.
  intros Hconn. unfold set_arm_position. rewrite Hconn. cbn [negb].
  fold (arm_action request).
  rewrite (send_action_unfold bus rb (arm_action request) 0.0 0.0 0.0)
    by by apply sendable_arm_action.
  rewrite zero_literal, velocities_of_rest. run.
  destruct (max_relative_target (config rb)) as [max_rel|].
  - destruct (sync_read bus (trace rb) _ _) as [present_pos|e];
      cbn beta iota; [|settle_calls].
    destruct (clamp_goals present_pos max_rel _) as [goals|e];
      cbn beta iota; [|settle_calls].
    destruct (sync_write bus _ "Goal_Position" _ _) as [[]|e];
      cbn beta iota; [|settle_calls].
    destruct (sync_write bus _ "Goal_Velocity" _ _) as [[]|e];
      cbn beta iota; settle_calls.
  - destruct (sync_write bus _ "Goal_Position" _ _) as [[]|e];
      cbn beta iota; [|settle_calls].
    destruct (sync_write bus _ "Goal_Velocity" _ _) as [[]|e];
      cbn beta iota; settle_calls.
Qed.

(** X21. The emergency stop of the API is refused while a camera is down: with
    any camera not connected, [stop_motors] answers 503 and nothing is sent
    to the bus, whatever the state of the bus. *)
Theorem stop_motors_needs_cameras (rb : Robot) (name : string) (cam : Camera) :
  In (name, cam) (cameras rb) ->
  cam_is_connected cam = false ->
  stop_motors bus str rb =
  (Abort (mkHTTPException 503 "Robot not connected"), rb).
Proof.
  intros Hin Hcam. unfold stop_motors.
  by rewrite (camera_down rb name cam).
Qed.

(** X22. [calibrate_robot] raises one HTTP error only, the 400 of a robot that
    is not connected, and has done nothing then; a calibration that fails
    is reported in the response. *)
Theorem calibrate_robot_abort (rb rb' : Robot) (e : HTTPException) :
  calibrate_robot bus fs POSITION str rb = (Abort e, rb') ->
  is_connected rb = false /\
  e = mkHTTPException 400 "Robot not connected. Connect first." /\
  rb' = rb.
Proof.
  unfold calibrate_robot.
  destruct (is_connected rb); cbn [negb].
  - by destruct (calibrate bus fs POSITION rb) as [[[]|e'] rb2].
  - by intros [= <- <-].
Qed.

End Routes.

Lemma set_arm_position_holds_base_witness :
  exists calls,
    trace (set_arm_position (steady_bus 0) (fun _ => "error"%string)
             (mkArmPositionRequest 10 20 30 40 50 60)
             (robot_up plain_config)).2
      = trace (robot_up plain_config) ++ calls /\
    (forall values num_retry,
       In (SyncWrite "Goal_Velocity" values num_retry) calls ->
       values = base_zeros) /\
    (forall resp,
       (set_arm_position (steady_bus 0) (fun _ => "error"%string)
          (mkArmPositionRequest 10 20 30 40 50 60)
          (robot_up plain_config)).1 = Return resp ->
       In (SyncWrite "Goal_Velocity" base_zeros None) calls).
Proof. apply set_arm_position_holds_base. reflexivity. Defined.

Lemma stop_motors_needs_cameras_witness :
  stop_motors (steady_bus 0) (fun _ => "error"%string)
    (mkRobot plain_config true true (two_cameras true false) [])
  = (Abort (mkHTTPException 503 "Robot not connected"),
     mkRobot plain_config true true (two_cameras true false) []).
Proof.
  apply (stop_motors_needs_cameras (steady_bus 0) _ _ "wrist" (mkCamera false));
    [cbn; tauto | reflexivity].
Defined.

Lemma calibrate_robot_abort_witness :
  is_connected (robot_down plain_config) = false /\
  mkHTTPException 400 "Robot not connected. Connect first."
    = mkHTTPException 400 "Robot not connected. Connect first." /\
  robot_down plain_config = robot_down plain_config.
Proof.
  apply (calibrate_robot_abort (steady_bus 0) steady_fs 0
           (fun _ => "error"%string)).
  reflexivity.
Defined.

End ApiFacts.

(** ** Connecting, configuring and disconnecting ([robot/lekiwi.py]) *)

Module Lifecycle.
Import Py LeKiwi Api.

(** The calls of [connect], [configure] and [disconnect]: those of [Event],
    and besides on the bus [connect()], [configure_motors()] and
    [disconnect(disable_torque)], on a camera [connect()] and
    [disconnect()]. Cameras are named by their key in [self.cameras]. *)
Inductive Call : Type :=
| OnRobot (ev : Event)
| BusConnect
| ConfigureMotors
| BusDisconnect (disable_torque : bool)
| CamConnect (name : string)
| CamDisconnect (name : string).

(** How the hardware answers the calls that are not in [Bus], given all the
    calls so far. [bus_calibrated] is [self.bus.is_calibrated] as the bus
    reports it at that moment. *)
Record Hardware : Type := mkHardware {
  bus_connect : list Call -> result ();
  bus_calibrated : list Call -> bool;
  configure_motors : list Call -> result ();
  bus_disconnect : list Call -> bool -> result ();
  cam_connect : list Call -> string -> result ();
  cam_disconnect : list Call -> string -> result ()
}.

(** The robot together with [self.bus.calibration], the calibration
    [__init__] handed to the bus ([None] or a dict), and the calls so far.
    The flags of the robot are those at the entry of a method. *)
Record World : Type := mkWorld {
  robot : Robot;
  bus_calibration : option (gmap string MotorCalibration);
  calls : list Call
}.

Definition L (A : Type) : Type := World -> result A * World.

#[global] Instance L_ret : MRet L := fun A a w => (Ok a, w).
#[global] Instance L_bind : MBind L := fun A B f m w =>
  match m w with
  | (Ok a, w') => f a w'
  | (Raise e, w') => (Raise e, w')
  end.

Definition throw {A} (e : exn) : L A := fun w => (Raise e, w).
Definition get_world : L World := fun w => (Ok w, w).

(** One call on the hardware. *)
Definition hw_call {A} (c : Call) (answer : list Call -> result A) : L A :=
  fun w => (answer (calls w),
            mkWorld (robot w) (bus_calibration w) (calls w ++ [c])).

(** A question to the hardware that is not a call. *)
Definition ask {A} (question : list Call -> A) : L A :=
  fun w => (Ok (question (calls w)), w).

(** The events a method of the robot added to the trace. *)
Definition new_events (rb rb' : Robot) : list Event :=
  drop (length (trace rb)) (trace rb').

(** A method of [LeKiwi] run in the world: its events join the calls. *)
Definition on_robot {A} (m : M A) : L A := fun w =>
  match m (robot w) with
  | (r, rb') =>
      (r, mkWorld rb' (bus_calibration w)
                  (calls w ++ map OnRobot (new_events (robot w) rb')))
  end.

(** [bool(self.bus.calibration)] *)
Definition truthy (calibration : option (gmap string MotorCalibration)) : bool :=
  match calibration with
  | Some c => bool_decide (c <> ∅)
  | None => false
  end.

Section Methods.

Variable bus : Bus.
Variable fs : FileSystem.
Variable hw : Hardware.

(** [OperatingMode.POSITION.value] and [OperatingMode.VELOCITY.value] *)
Variable POSITION : Z.
Variable VELOCITY : Z.

(** [self.bus.write(data_name, name, value)] *)
Definition bus_write (data_name name : string) (value : Z) : L () :=
  on_robot (call (Write data_name name value)
                 (fun tr => write bus tr data_name name value)).

(** The loop of [configure] over the arm motors. *)
Fixpoint configure_arm (names : list string) : L () :=
  match names with
  | [] => mret ()
  | name :: rest =>
      bus_write "Operating_Mode" name POSITION;;
      bus_write "P_Coefficient" name 16;;
      bus_write "I_Coefficient" name 0;;
      bus_write "D_Coefficient" name 32;;
      configure_arm rest
  end.

(** The loop of [configure] over the base motors. *)
Fixpoint configure_base (names : list string) : L () :=
  match names with
  | [] => mret ()
  | name :: rest =>
      bus_write "Operating_Mode" name VELOCITY;;
      configure_base rest
  end.

(** [configure()] *)
Definition configure : L () :=
  w ← get_world;
  on_robot (call (DisableTorque None) (fun tr => disable_torque bus tr None));;
  hw_call ConfigureMotors (configure_motors hw);;
  configure_arm (arm_motors (config (robot w)));;
  configure_base (base_motors (config (robot w)));;
  on_robot (call EnableTorque (enable_torque bus)).

(** [for cam in self.cameras.values(): cam.connect()] *)
Fixpoint connect_cameras (names : list string) : L () :=
  match names with
  | [] => mret ()
  | name :: rest =>
      hw_call (CamConnect name) (fun cs => cam_connect hw cs name);;
      connect_cameras rest
  end.

(** [for cam in self.cameras.values(): cam.disconnect()] *)
Fixpoint disconnect_cameras (names : list string) : L () :=
  match names with
  | [] => mret ()
  | name :: rest =>
      hw_call (CamDisconnect name) (fun cs => cam_disconnect hw cs name);;
      disconnect_cameras rest
  end.

(** [connect(calibrate)]. In the branch that writes the calibration from
    file [self.bus.calibration] is a dict that is not empty. *)
Definition connect (calibrate : bool) : L () :=
  w ← get_world;
  if is_connected (robot w) then throw DeviceAlreadyConnectedError else
  hw_call BusConnect (bus_connect hw);;
  let calibration_from_file := truthy (bus_calibration w) in
  (if calibration_from_file then
     let calibration := default ∅ (bus_calibration w) in
     on_robot (call (DisableTorque None)
                    (fun tr => disable_torque bus tr None));;
     on_robot (call (WriteCalibration calibration)
                    (fun tr => write_calibration bus tr calibration));;
     on_robot (call EnableTorque (enable_torque bus))
   else mret ());;
  (if negb calibration_from_file then
     calibrated ← ask (bus_calibrated hw);
     if negb calibrated && calibrate
     then on_robot (LeKiwi.calibrate bus fs POSITION)
     else mret ()
   else mret ());;
  connect_cameras (keys (cameras (robot w)));;
  configure.

(** [disconnect()] *)
Definition disconnect : L () :=
  w ← get_world;
  if negb (is_connected (robot w)) then throw DeviceNotConnectedError else
  on_robot (stop_base bus);;
  let flag := disable_torque_on_disconnect (config (robot w)) in
  hw_call (BusDisconnect flag) (fun cs => bus_disconnect hw cs flag);;
  disconnect_cameras (keys (cameras (robot w))).

(** [str(e)], the text of an exception. *)
Variable str : exn -> string.

(** [connect_robot(robot)] of [api/routes/robot.py]. *)
Definition connect_robot : World -> reply (dict any) * World := fun w =>
  if is_connected (robot w)
  then (Abort (mkHTTPException 400 "Robot already connected"), w)
  else
    match connect false w with
    | (Ok _, w') =>
        (Return [ ("success", Flag true);
                  ("message", Text "Robot connected successfully") ]%string,
         w')
    | (Raise e, w') =>
        (Abort (mkHTTPException 500 ("Failed to connect: " ++ str e)), w')
    end.

End Methods.

End Lifecycle.

Module LifecycleFacts.
Import Py PyFacts LeKiwi LeKiwiFacts Api Lifecycle.

Ltac lrun :=
  unfold mbind, mret, L_bind, L_ret, get_world, throw, ask, hw_call;
  cbn beta iota.

Lemma on_robot_call {A} (ev : Event) (answer : list Event -> result A)
    (w : World) :
  on_robot (call ev answer) w =
  (answer (trace (robot w)),
   mkWorld (log ev (robot w)) (bus_calibration w) (calls w ++ [OnRobot ev])).
Proof.
  unfold on_robot, call, new_events. cbn [fst snd].
  rewrite trace_log, drop_app_length. reflexivity.
Qed.

(** A computation all of whose calls satisfy [P]. *)
Definition emits (P : Call -> Prop) {A} (m : L A) : Prop :=
  forall w, exists cs, calls (m w).2 = calls w ++ cs /\ Forall P cs.


Section Emits.

Variable P : Call -> Prop.

Lemma emits_ret {A} (a : A) : emits P (mret a : L A).
Proof. intros w. exists []. by rewrite app_nil_r. Qed.

Lemma emits_throw {A} (e : exn) : emits P (throw e : L A).
Proof. intros w. exists []. by rewrite app_nil_r. Qed.

Lemma emits_ask {A} (question : list Call -> A) : emits P (ask question).
Proof. intros w. exists []. by rewrite app_nil_r. Qed.

Lemma emits_bind {A B} (m : L A) (f : A -> L B) :
  emits P m -> (forall a, emits P (f a)) -> emits P (m ≫= f).
Proof.
  intros Hm Hf w. lrun. destruct (Hm w) as (cs & Hcs & HP).
  destruct (m w) as [[a|e] w1]; cbn [snd] in *.
  - destruct (Hf a w1) as (cs' & Hcs' & HP').
    exists (cs ++ cs'). rewrite Hcs', Hcs, app_assoc. split; [done|].
    by apply Forall_app.
  - by exists cs.
Qed.

Lemma emits_hw_call {A} (c : Call) (answer : list Call -> result A) :
  P c -> emits P (hw_call c answer).
Proof. intros Hc w. exists [c]. split; [done|]. by apply Forall_singleton. Qed.

Lemma emits_on_robot_call {A} (ev : Event) (answer : list Event -> result A) :
  P (OnRobot ev) -> emits P (on_robot (call ev answer)).
Proof.
  intros Hc w. rewrite on_robot_call. exists [OnRobot ev].
  split; [done|]. by apply Forall_singleton.
Qed.


End Emits.

Section Methods.

Variable bus : Bus.
Variable fs : FileSystem.
Variable hw : Hardware.
Variable POSITION : Z.
Variable VELOCITY : Z.

Section Configure.

Variable P : Call -> Prop.
Hypothesis P_write : forall data_name name value,
  P (OnRobot (Write data_name name value)).

Lemma emits_bus_write (data_name name : string) (value : Z) :
  emits P (bus_write bus data_name name value).
Proof. apply emits_on_robot_call, P_write. Qed.

Lemma emits_configure_arm (names : list string) :
  emits P (configure_arm bus POSITION names).
Proof.
  induction names as [|name rest IH]; cbn [configure_arm].
  - apply emits_ret.
  - repeat (apply emits_bind; [apply emits_bus_write | intros _]). exact IH.
Qed.

Lemma emits_configure_base (names : list string) :
  emits P (configure_base bus VELOCITY names).
Proof.
  induction names as [|name rest IH]; cbn [configure_base].
  - apply emits_ret.
  - apply emits_bind; [apply emits_bus_write | intros _]. exact IH.
Qed.

Hypothesis P_disable : P (OnRobot (DisableTorque None)).
Hypothesis P_configure : P ConfigureMotors.
Hypothesis P_enable : P (OnRobot EnableTorque).

Lemma emits_configure : emits P (configure bus hw POSITION VELOCITY).
Proof.
  unfold configure.
  apply emits_bind; [intros w; exists []; by rewrite app_nil_r | intros w].
  apply emits_bind; [by apply emits_on_robot_call | intros _].
  apply emits_bind; [by apply emits_hw_call | intros _].
  apply emits_bind; [apply emits_configure_arm | intros _].
  apply emits_bind; [apply emits_configure_base | intros _].
  by apply emits_on_robot_call.
Qed.

End Configure.

(** The calls that only [calibrate] makes: the prompt of the operator, the
    two recordings and the writing of the calibration file. *)
Definition calibrating (c : Call) : Prop :=
  match c with
  | OnRobot (Input _)
  | OnRobot (SetHalfTurnHomings _)
  | OnRobot (RecordRangesOfMotion _)
  | OnRobot (Mkdir _)
  | OnRobot (JsonDump _ _) => True
  | _ => False
  end.

Lemma emits_connect_cameras (P : Call -> Prop) (names : list string) :
  (forall name, P (CamConnect name)) ->
  emits P (connect_cameras hw names).
Proof.
  intros HP. induction names as [|name rest IH]; cbn [connect_cameras].
  - apply emits_ret.
  - apply emits_bind; [by apply emits_hw_call | intros _]. exact IH.
Qed.

(** The calls of a [connect] that has no reason to calibrate. *)
Lemma connect_calls (calibrate : bool) (w : World) :
  calibrate = false \/ truthy (bus_calibration w) = true ->
  exists cs,
    calls (connect bus fs hw POSITION VELOCITY calibrate w).2 = calls w ++ cs /\
    Forall (fun c => ~ calibrating c) cs.
Proof.
  intros Hskip. revert w Hskip.
  assert (Hemits : forall w0 : World,
    calibrate = false \/ truthy (bus_calibration w0) = true ->
    emits (fun c => ~ calibrating c)
      (if is_connected (robot w0) then throw DeviceAlreadyConnectedError else
       hw_call BusConnect (bus_connect hw);;
       let calibration_from_file := truthy (bus_calibration w0) in
       (if calibration_from_file then
          let calibration := default ∅ (bus_calibration w0) in
          on_robot (call (DisableTorque None)
                         (fun tr => disable_torque bus tr None));;
          on_robot (call (WriteCalibration calibration)
                         (fun tr => write_calibration bus tr calibration));;
          on_robot (call EnableTorque (enable_torque bus))
        else mret ());;
       (if negb calibration_from_file then
          calibrated ← ask (bus_calibrated hw);
          if negb calibrated && calibrate
          then on_robot (LeKiwi.calibrate bus fs POSITION)
          else mret ()
        else mret ());;
       connect_cameras hw (keys (cameras (robot w0)));;
       configure bus hw POSITION VELOCITY)).
  { intros w0 Hskip.
    destruct (is_connected (robot w0)); [apply emits_throw|].
    apply emits_bind; [apply emits_hw_call; cbn; tauto | intros _].
    cbn zeta. apply emits_bind.
    { destruct (truthy (bus_calibration w0)); [|apply emits_ret].
      apply emits_bind; [apply emits_on_robot_call; cbn; tauto | intros _].
      apply emits_bind; [apply emits_on_robot_call; cbn; tauto | intros _].
      apply emits_on_robot_call; cbn; tauto. }
    intros _. apply emits_bind.
    { destruct (truthy (bus_calibration w0)); cbn [negb]; [apply emits_ret|].
      destruct Hskip as [-> | Hfile]; [|done].
      apply emits_bind; [apply emits_ask | intros calibrated].
      rewrite andb_false_r. apply emits_ret. }
    intros _. apply emits_bind; [apply emits_connect_cameras; cbn; tauto | intros _].
    apply emits_configure; cbn; tauto. }
  intros w Hskip. exact (Hemits w Hskip w).
Qed.

(** X23. [connect] does not calibrate by hand when told not to, nor when a
    calibration was loaded from file: then the operator is never prompted,
    nothing is recorded and the calibration file is not written, whatever
    the bus reports about its calibration. *)
Theorem connect_skips_calibration (calibrate : bool) (w : World) :
  calibrate = false \/ truthy (bus_calibration w) = true ->
  exists cs,
    calls (connect bus fs hw POSITION VELOCITY calibrate w).2 = calls w ++ cs /\
    Forall (fun c => ~ calibrating c) cs.
Proof. apply connect_calls. Qed.

(** X24. Connecting through the API never starts the calibration procedure:
    whatever the state of the robot and the answers of the hardware,
    [connect_robot] neither prompts the operator nor records or saves a
    calibration. *)
Theorem connect_robot_never_calibrates (str : exn -> string) (w : World) :
  exists cs,
    calls (connect_robot bus fs hw POSITION VELOCITY str w).2 = calls w ++ cs /\
    Forall (fun c => ~ calibrating c) cs.
Proof.
  unfold connect_robot.
  destruct (is_connected (robot w)); [exists []; by rewrite app_nil_r|].
  destruct (connect_calls false w) as (cs & Hcs & HP); [by left|].
  exists cs. split; [|done]. rewrite <- Hcs.
  by destruct (connect bus fs hw POSITION VELOCITY false w) as [[[]|e] w'].
Qed.


(** X26. [disconnect] stops the base first; when that write fails, [disconnect]
    raises and neither the bus nor a camera is disconnected. *)
Theorem disconnect_stop_failure (w : World) (e : exn) :
  is_connected (robot w) = true ->
  sync_write bus (trace (robot w)) "Goal_Velocity" base_zeros (Some 5%Z)
    = Raise e ->
  exists w',
    disconnect bus hw w = (Raise e, w') /\
    calls w' =
      calls w ++ [OnRobot (SyncWrite "Goal_Velocity" base_zeros (Some 5%Z))].
Proof.
  intros Hconn Hfail. unfold disconnect. lrun. rewrite Hconn. cbn [negb].
  change (stop_base bus) with
    (call (SyncWrite "Goal_Velocity" base_zeros (Some 5%Z))
          (fun tr => sync_write bus tr "Goal_Velocity" base_zeros (Some 5%Z))).
  rewrite on_robot_call, Hfail. eexists. split; reflexivity.
Qed.

End Methods.

(** Hardware on which every call succeeds and whose bus reports itself as
    not calibrated. *)
Definition steady_hw : Hardware :=
  {| bus_connect := fun _ => Ok ();
     bus_calibrated := fun _ => false;
     configure_motors := fun _ => Ok ();
     bus_disconnect := fun _ _ => Ok ();
     cam_connect := fun _ _ => Ok ();
     cam_disconnect := fun _ _ => Ok () |}.


Definition world_down : World := mkWorld (robot_down plain_config) None [].
Definition world_up : World := mkWorld (robot_up plain_config) None [].

Lemma connect_skips_calibration_witness :
  exists cs,
    calls (connect (steady_bus 0) steady_fs steady_hw 0 1 false world_down).2
      = calls world_down ++ cs /\
    Forall (fun c => ~ calibrating c) cs.
Proof. apply connect_skips_calibration. left. reflexivity. Defined.


Lemma disconnect_stop_failure_witness :
  exists w',
    disconnect ActionMore.deaf_bus steady_hw world_up
      = (Raise BusCommunicationFailure, w') /\
    calls w' =
      calls world_up ++
      [OnRobot (SyncWrite "Goal_Velocity" base_zeros (Some 5%Z))].
Proof. apply disconnect_stop_failure; reflexivity. Defined.

End LifecycleFacts.
